(** * CsES web scraper: the scrape-and-aggregate pipeline and the leaderboard

    A shallow embedding of [web_scaper.py]: the statistics folded from a
    scraped problem list, the login and extraction steps driven through a
    browser session, the [scrape] request handler with its teardown, and
    the [leaderboard] reader.

    Python dictionaries keyed by section name are finite maps ([gmap string]),
    Python lists are lists, and every call that leaves the process (browser,
    file system, clock, standard output) is an event answered by an oracle
    over an abstract environment, so that exceptions and their handlers are
    explicit. The extractor and the request are given twice: with a [print]
    that always goes through and the two lists passed from turn to turn,
    and with a [print] that asks the oracle and the two lists kept in the
    store; the two are shown to agree where printing is silent. *)

From Stdlib Require Import ZArith QArith Qcanon.
From stdpp Require Import gmap strings list fin_maps pretty sorting.


(** ** Data model *)

(** One entry of the problem list, the dictionary built at lines 200-205.
    [get_attribute("href")] may answer [None], hence the optional link. *)
Record ProblemRecord := mkProblem {
  name : string;
  link : option string;
  section : string;
  solved : bool
}.

(** The value of one key of [stats["sections"]]. *)
Record SectionCount := mkCount {
  sec_solved : nat;
  sec_total : nat
}.

(** The dictionary returned by [scrape_problem_data] on success. *)
Record ProblemsData := mkData {
  pd_solved : list ProblemRecord;
  pd_unsolved : list ProblemRecord;
  total_solved : nat;
  total_problems : nat
}.

(** The [stats] dictionary written to [stats.json]. *)
Record UserStats := mkStats {
  username : string;
  timestamp : string;
  solved_count : nat;
  total_count : nat;
  last_updated : string;
  sections : gmap string SectionCount
}.

(** ** Stats aggregator (lines 276-296 of [scrape]) *)

Module Aggregator.

(** [if section not in stats["sections"]: stats["sections"][section] = {...}] *)
Definition ensure_section (s : string) (m : gmap string SectionCount)
  : gmap string SectionCount :=
  match m !! s with
  | Some _ => m
  | None => <[s := mkCount 0 0]> m
  end.

Definition bump_solved (c : SectionCount) : SectionCount :=
  mkCount (S (sec_solved c)) (sec_total c).

Definition bump_total (c : SectionCount) : SectionCount :=
  mkCount (sec_solved c) (S (sec_total c)).

(** Body of the loop at lines 286-290. The key is present after
    [ensure_section], so the subscript never raises. *)
Definition solved_step (m : gmap string SectionCount) (p : ProblemRecord)
  : gmap string SectionCount :=
  alter bump_solved (section p) (ensure_section (section p) m).

(** Body of the loop at lines 292-296. *)
Definition total_step (m : gmap string SectionCount) (p : ProblemRecord)
  : gmap string SectionCount :=
  alter bump_total (section p) (ensure_section (section p) m).

Definition solved_pass (l : list ProblemRecord) (m : gmap string SectionCount) :=
  fold_left solved_step l m.

Definition total_pass (l : list ProblemRecord) (m : gmap string SectionCount) :=
  fold_left total_step l m.

(** The two loops in sequence, starting from the empty dictionary. *)
Definition section_stats (pd : ProblemsData) : gmap string SectionCount :=
  total_pass (pd_solved pd ++ pd_unsolved pd) (solved_pass (pd_solved pd) ∅).

(** The [stats] dictionary, lines 276-296. *)
Definition build_stats (user ts now : string) (pd : ProblemsData) : UserStats :=
  mkStats user ts (total_solved pd) (total_problems pd) now (section_stats pd).

(** The dictionary literal of lines 223-228. *)
Definition problems_data (s u : list ProblemRecord) : ProblemsData :=
  mkData s u (length s) (length s + length u).

(** The aggregator as the function [(ProblemSet, username, now) -> UserStats]. *)
Definition aggregate (s u : list ProblemRecord) (user ts now : string) : UserStats :=
  build_stats user ts now (problems_data s u).

(** Number of records of [l] filed under section [s]. *)
Definition count_in (s : string) (l : list ProblemRecord) : nat :=
  length (filter (λ p, section p = s) l).

(** Sum of one counter over all sections of a dictionary,
    [sum(c[field] for c in sections.values())]. *)
Definition sum_by (field : SectionCount → nat) (m : gmap string SectionCount) : nat :=
  map_fold (λ _ c acc, field c + acc) 0 m.

Definition sum_solved := sum_by sec_solved.
Definition sum_total := sum_by sec_total.

(** The counters as the specification words them: the first pass bumps
    both [solved] and [total], the second pass bumps [total] again. *)
Definition spec_solved_step (m : gmap string SectionCount) (p : ProblemRecord)
  : gmap string SectionCount :=
  alter bump_total (section p)
    (alter bump_solved (section p) (ensure_section (section p) m)).

Definition spec_section_stats (pd : ProblemsData) : gmap string SectionCount :=
  total_pass (pd_solved pd ++ pd_unsolved pd)
    (fold_left spec_solved_step (pd_solved pd) ∅).

End Aggregator.

(** ** Strings *)

Module PyStr.

(** [needle in hay] for Python strings. *)
Fixpoint str_in (needle hay : string) : bool :=
  String.prefix needle hay ||
  match hay with
  | EmptyString => false
  | String _ hay' => str_in needle hay'
  end.

(** The ASCII characters [str.split()] treats as separators. *)
Definition is_space (a : Ascii.ascii) : bool :=
  let n := Ascii.nat_of_ascii a in
  (Nat.leb 9 n && Nat.leb n 13) || (Nat.leb 28 n && Nat.leb n 32).

Fixpoint split_from (s word : string) : list string :=
  match s with
  | EmptyString => if decide (word = "") then [] else [word]
  | String a s' =>
      if is_space a
      then (if decide (word = "") then split_from s' ""
            else word :: split_from s' "")
      else split_from s' (word +:+ String a "")
  end.

(** [s.split()]: the maximal runs of non-blank characters of [s]. *)
Definition split (s : string) : list string := split_from s "".

(** Truth value of the result of [os.getenv]: [None] and the empty string
    are both false. *)
Definition truthy (o : option string) : option string :=
  match o with
  | Some s => if decide (s = "") then None else Some s
  | None => None
  end.

End PyStr.

(** ** Paths *)

Module PyPath.

(** The pieces of [s] between slashes, [piece] being the one under way. *)
Fixpoint pieces_from (s piece : string) : list string :=
  match s with
  | EmptyString => [piece]
  | String a s' =>
      if decide (String a "" = "/") then piece :: pieces_from s' ""
      else pieces_from s' (piece +:+ String a "")
  end.

(** The names of a path: [pathlib] drops the empty pieces (repeated and
    trailing slashes) and the pieces that are a single dot, and keeps the
    double dots. *)
Definition names (s : string) : list string :=
  filter (λ piece, piece ≠ "" ∧ piece ≠ ".") (pieces_from s "").

(** The root of a POSIX path: exactly two leading slashes are kept, one,
    or three and more, make a single slash. *)
Definition root (s : string) : string :=
  if String.prefix "///" s then "/"
  else if String.prefix "//" s then "//"
  else if String.prefix "/" s then "/"
  else "".

(** [str(path)]: the path without root and names is the dot. *)
Definition render (root : string) (names : list string) : string :=
  match names with
  | [] => if decide (root = "") then "." else root
  | _ => root +:+ String.concat "/" names
  end.

End PyPath.

(** ** The outside world: browser, file system, clock *)

(** A raised Python exception: its class and [str(e)]. Only subclasses of
    [Exception] are modelled, which is what every handler here catches. *)
Record Exception := mkExc {
  exc_class : string;
  exc_str : string
}.

(** Handles of a browser session and of a DOM element. *)
Definition Driver := nat.
Definition Element := nat.

(** [WebDriverWait(driver, timeout)]. *)
Record Wait := mkWait {
  wait_driver : Driver;
  wait_timeout : nat
}.

Inductive By := By_NAME | By_CSS_SELECTOR | By_CLASS_NAME | By_TAG_NAME.

(** What [json.dump] is given for each of the three artifacts. *)
Inductive FileContent :=
  | SolvedJson (total : nat) (problems : list ProblemRecord)
  | UnsolvedJson (total : nat) (problems : list ProblemRecord)
  | StatsJson (stats : UserStats).

(** The calls that leave the process, indexed by the type of their answer. *)
Inductive Call : Type → Type :=
  | ChromeNew (args : list string) : Call Driver
  | ImplicitlyWait (d : Driver) (seconds : nat) : Call unit
  | Quit (d : Driver) : Call unit
  | Get (d : Driver) (url : string) : Call unit
  | Title (d : Driver) : Call string
  | SleepUniform (lo hi : nat) : Call unit
  | UntilPresent (w : Wait) (by_ : By) (value : string) : Call Element
  | UntilClickable (w : Wait) (by_ : By) (value : string) : Call Element
  | Clear (e : Element) : Call unit
  | SendKeys (e : Element) (keys : string) : Call unit
  | Click (e : Element) : Call unit
  | DriverFindElements (d : Driver) (by_ : By) (value : string) : Call (list Element)
  | FindElement (e : Element) (by_ : By) (value : string) : Call Element
  | FindElements (e : Element) (by_ : By) (value : string) : Call (list Element)
  | Text (e : Element) : Call string
  | GetAttribute (e : Element) (attr : string) : Call (option string)
  | Mkdir (path : string) : Call unit
  | WriteJson (path : string) (content : FileContent) : Call unit
  | Strftime (format : string) : Call string
  | Print (line : string) : Call unit.

(** What a request leaves behind: every call with its outcome, and every
    line printed. *)
Inductive Event :=
  | EvCall {T : Type} (c : Call T) (r : Exception + T)
  | EvPrint (line : string).

(** The JSON body and status code a route returns. *)
Inductive Body :=
  | ErrorBody (error : string)
  | SuccessBody (message : string) (solved_count total_problems : nat)
      (solved_file unsolved_file stats_file : string).

Record Response := mkResp {
  body : Body;
  status : nat
}.

(** Readings of a trace. *)
Module Trace.

Definition is_session_open (ev : Event) : option Driver :=
  match ev with
  | EvCall (ChromeNew _) (inr d) => Some d
  | _ => None
  end.

Definition is_quit (d : Driver) (ev : Event) : bool :=
  match ev with
  | EvCall (Quit d') _ => bool_decide (d' = d)
  | _ => false
  end.

Definition is_fs_write (ev : Event) : bool :=
  match ev with
  | EvCall (Mkdir _) _ => true
  | EvCall (WriteJson _ _) _ => true
  | _ => false
  end.

Definition is_file_write (ev : Event) : bool :=
  match ev with
  | EvCall (WriteJson _ _) _ => true
  | _ => false
  end.

(** The stats dictionaries handed to [json.dump] during a request. *)
Definition stats_written (ev : Event) : option UserStats :=
  match ev with
  | EvCall (WriteJson _ (StatsJson st)) _ => Some st
  | _ => None
  end.

(** Sessions opened, in order. *)
Definition sessions_opened (t : list Event) : list Driver :=
  omap is_session_open t.

End Trace.

(** ** The monad of the pipeline: state, trace and exceptions *)

(** The three components of a run. *)
Definition final_env {Env A} (r : Env * list Event * (Exception + A)) : Env := r.1.1.
Definition trace_of {Env A} (r : Env * list Event * (Exception + A)) : list Event := r.1.2.
Definition outcome {Env A} (r : Env * list Event * (Exception + A)) : Exception + A := r.2.

Section Pipeline.

(** The state of everything outside the process, and the way it answers. *)
Variable Env : Type.
Variable oracle : ∀ T, Call T → Env → Env * (Exception + T).

(** The process environment read by [os.getenv]. *)
Variable environ : string → option string.

Definition M (A : Type) : Type := Env → Env * list Event * (Exception + A).

Definition ret {A} (a : A) : M A := λ env, (env, [], inr a).

Definition bind {A B} (m : M A) (k : A → M B) : M B := λ env,
  match m env with
  | (env1, t1, inl e) => (env1, t1, inl e)
  | (env1, t1, inr a) =>
      match k a env1 with
      | (env2, t2, r) => (env2, t1 ++ t2, r)
      end
  end.

Definition raise {A} (e : Exception) : M A := λ env, (env, [], inl e).

(** [try: m  except Exception as e: h e]. *)
Definition try_except {A} (m : M A) (h : Exception → M A) : M A := λ env,
  match m env with
  | (env1, t1, inl e) =>
      match h e env1 with
      | (env2, t2, r) => (env2, t1 ++ t2, r)
      end
  | (env1, t1, inr a) => (env1, t1, inr a)
  end.

(** [try: m  finally: fin]. The outcome of [m] stands unless [fin] raises. *)
Definition try_finally {A} (m : M A) (fin : M unit) : M A := λ env,
  match m env with
  | (env1, t1, r) =>
      match fin env1 with
      | (env2, t2, inl e) => (env2, t1 ++ t2, inl e)
      | (env2, t2, inr _) => (env2, t1 ++ t2, r)
      end
  end.

(** Runs [m] and hands its outcome over as a value. *)
Definition attempt {A} (m : M A) : M (Exception + A) := λ env,
  match m env with
  | (env1, t1, r) => (env1, t1, inr r)
  end.

Definition call {T} (c : Call T) : M T := λ env,
  match oracle T c env with
  | (env1, r) => (env1, [EvCall c r], r)
  end.

(** A [print] that goes through: the line is written and nothing is raised.
    [print_io] below is the [print] that asks the outside world and may
    raise; the two extractors are compared at the end of the file. *)
Definition print (line : string) : M unit := λ env, (env, [EvPrint line], inr tt).

#[local] Instance M_ret : MRet M := @ret.
#[local] Instance M_bind : MBind M := λ A B k m, bind m k.

(** [for x in xs: acc = body acc x]. *)
Fixpoint for_each {A X} (xs : list X) (body : A → X → M A) (acc : A) : M A :=
  match xs with
  | [] => ret acc
  | x :: xs' => acc' ← body acc x; for_each xs' body acc'
  end.

(** *** Session driver *)

Definition BASE_DATA_DIR : string := "scraped_data".

(** [str(parent / child)] for [pathlib] paths on POSIX, [parent] being the
    text of a path. *)
Definition path_join (parent child : string) : string :=
  if decide (PyPath.root child = "")
  then PyPath.render (PyPath.root parent) (PyPath.names parent ++ PyPath.names child)
  else PyPath.render (PyPath.root child) (PyPath.names child).

Definition chrome_options : list string :=
  ["--headless"; "--no-sandbox"; "--disable-dev-shm-usage";
   "--window-size=1920,1080"; "--disable-gpu"].

Definition setup_driver : M Driver :=
  driver ← call (ChromeNew chrome_options);
  call (ImplicitlyWait driver 10);;
  ret driver.

Definition ensure_user_directory (username : string) : M string :=
  let user_dir := path_join BASE_DATA_DIR username in
  call (Mkdir user_dir);;
  ret user_dir.

(** *** Login handshake *)

(** The CSS selector of the submit control; character 34 is the double
    quote around the word submit. *)
Definition submit_selector : string :=
  let dq := String (Ascii.ascii_of_nat 34) EmptyString in
  "input[type=" +:+ dq +:+ "submit" +:+ dq +:+ "]".

(** The body of the [try] block of [login_to_cses]. *)
Definition login_steps (driver : Driver) (wait : Wait) (username password : string)
  : M (bool * string) :=
  call (Get driver "https://cses.fi/login");;
  call (SleepUniform 2 4);;
  username_field ← call (UntilPresent wait By_NAME "nick");
  call (Clear username_field);;
  call (SendKeys username_field username);;
  call (SleepUniform 1 2);;
  password_field ← call (UntilPresent wait By_NAME "pass");
  call (Clear password_field);;
  call (SendKeys password_field password);;
  call (SleepUniform 1 2);;
  submit ← call (UntilClickable wait By_CSS_SELECTOR submit_selector);
  call (Click submit);;
  call (SleepUniform 3 5);;
  title ← call (Title driver);
  if PyStr.str_in "Login" title
  then ret (false, "Login failed. Please check credentials.")
  else ret (true, "Login successful").

Definition login_to_cses (driver : Driver) (wait : Wait) (username password : string)
  : M (bool * string) :=
  try_except
    (login_steps driver wait username password)
    (λ e, ret (false, "Login error: " +:+ exc_str e)).

(** *** Problem extractor *)

(** The two lists [solved_problems] and [unsolved_problems]. *)
Definition Lists : Type := list ProblemRecord * list ProblemRecord.

Definition AttributeError : Exception :=
  mkExc "AttributeError" "'NoneType' object has no attribute 'split'".

(** Lines 192-205: reads one entry and builds its record. *)
Definition read_problem (section_name : string) (problem : Element) : M ProblemRecord :=
  problem_link ← call (FindElement problem By_TAG_NAME "a");
  name ← call (Text problem_link);
  href ← call (GetAttribute problem_link "href");
  class ← call (GetAttribute problem "class");
  classes ← match class with
            | Some c => ret (PyStr.split c)
            | None => raise AttributeError
            end;
  let is_solved := existsb (PyStr.str_in "full") classes in
  ret (mkProblem name href section_name is_solved).

(** Lines 207-210. *)
Definition append_problem (acc : Lists) (r : ProblemRecord) : Lists :=
  if solved r then (acc.1 ++ [r], acc.2) else (acc.1, acc.2 ++ [r]).

(** One turn of the inner loop, lines 190-214. The append is the last
    statement of the [try] block, so a raising entry leaves both lists as
    they were. *)
Definition problem_iteration (section_name : string) (acc : Lists) (problem : Element)
  : M Lists :=
  try_except
    (r ← read_problem section_name problem; ret (append_problem acc r))
    (λ e, print ("Error processing problem: " +:+ exc_str e);; ret acc).

(** Lines 187-188: the heading and the entries of one section. *)
Definition read_section (task_list : Element) : M (string * list Element) :=
  h2 ← call (FindElement task_list By_TAG_NAME "h2");
  section_name ← call (Text h2);
  problems ← call (FindElements task_list By_CLASS_NAME "task");
  ret (section_name, problems).

(** One turn of the outer loop, lines 185-218. The inner loop handles every
    exception of its own turns, so the handler of the section only ever runs
    for the three reads that precede the inner loop, when the lists are
    still as on entry. *)
Definition section_iteration (acc : Lists) (task_list : Element) : M Lists :=
  try_except
    ('(section_name, problems) ← read_section task_list;
     for_each problems (problem_iteration section_name) acc)
    (λ e, print ("Error processing section: " +:+ exc_str e);; ret acc).

(** Lines 174-218: navigation and the two nested loops. *)
Definition extract_lists (driver : Driver) (wait : Wait) : M Lists :=
  call (Get driver "https://cses.fi/problemset/list/");;
  call (SleepUniform 3 5);;
  call (UntilPresent wait By_CLASS_NAME "task-list");;
  task_lists ← call (DriverFindElements driver By_CLASS_NAME "task-list");
  for_each task_lists section_iteration ([], []).

Definition is_empty {A} (l : list A) : bool :=
  match l with [] => true | _ => false end.

(** The pair [(False, message)] is [inl message], the pair [(True, data)]
    is [inr data]. *)
Definition scrape_problem_data (driver : Driver) (wait : Wait)
  : M (string + ProblemsData) :=
  try_except
    ('(solved_problems, unsolved_problems) ← extract_lists driver wait;
     if is_empty solved_problems && is_empty unsolved_problems
     then ret (inl "No problems found on the page")
     else ret (inr (Aggregator.problems_data solved_problems unsolved_problems)))
    (λ e, ret (inl ("Scraping error: " +:+ exc_str e))).

(** *** The partial-extraction policy, as the specification words it

    Every entry of a section is read in turn whatever happened to the
    entries before it, and every section likewise; a unit that fails is
    left out and the others are filed in order. *)

(** The outcome of reading each entry, and the environment afterwards. *)
Fixpoint entry_outcomes (section_name : string) (problems : list Element) (env : Env)
  : list (Exception + ProblemRecord) * Env :=
  match problems with
  | [] => ([], env)
  | problem :: rest =>
      let r := read_problem section_name problem env in
      let '(os, env') := entry_outcomes section_name rest (final_env r) in
      (outcome r :: os, env')
  end.

(** The outcome of each section: the failure of its heading or entry list,
    or the outcomes of its entries. *)
Fixpoint section_outcomes (task_lists : list Element) (env : Env)
  : list (Exception + list (Exception + ProblemRecord)) * Env :=
  match task_lists with
  | [] => ([], env)
  | task_list :: rest =>
      let r := read_section task_list env in
      match outcome r with
      | inl e =>
          let '(os, env') := section_outcomes rest (final_env r) in
          (inl e :: os, env')
      | inr (section_name, problems) =>
          let '(eos, env1) := entry_outcomes section_name problems (final_env r) in
          let '(os, env') := section_outcomes rest env1 in
          (inr eos :: os, env')
      end
  end.

(** Files the records that were read, skipping the failures. *)
Definition keep_entry (acc : Lists) (o : Exception + ProblemRecord) : Lists :=
  match o with
  | inl _ => acc
  | inr r => append_problem acc r
  end.

Definition keep_section (acc : Lists) (o : Exception + list (Exception + ProblemRecord))
  : Lists :=
  match o with
  | inl _ => acc
  | inr eos => fold_left keep_entry eos acc
  end.

(** The value of an outcome that is not a failure. *)
Definition success {A} (o : Exception + A) : option A :=
  match o with
  | inl _ => None
  | inr a => Some a
  end.

(** The records read successfully, in page order. *)
Definition entries_read (eos : list (Exception + ProblemRecord)) : list ProblemRecord :=
  omap success eos.

Definition records_read (os : list (Exception + list (Exception + ProblemRecord)))
  : list ProblemRecord :=
  mjoin (omap (λ o, entries_read <$> success o) os).

(** The two lists after filing [rs] behind what they hold. *)
Definition filed (rs : list ProblemRecord) (acc : Lists) : Lists :=
  (acc.1 ++ filter (λ r, solved r) rs, acc.2 ++ filter (λ r, ¬ solved r) rs).

(** *** The scrape request *)

(** Lines 257-312, after a successful extraction. *)
Definition save_snapshot (username user_dir : string) (problems_data : ProblemsData)
  : M Response :=
  timestamp ← call (Strftime "%Y%m%d_%H%M%S");
  let solved_file := path_join user_dir ("solved_" +:+ timestamp +:+ ".json") in
  call (WriteJson solved_file
          (SolvedJson (total_solved problems_data) (pd_solved problems_data)));;
  let unsolved_file := path_join user_dir ("unsolved_" +:+ timestamp +:+ ".json") in
  call (WriteJson unsolved_file
          (UnsolvedJson (length (pd_unsolved problems_data)) (pd_unsolved problems_data)));;
  now ← call (Strftime "%Y-%m-%d %H:%M:%S");
  let stats := Aggregator.build_stats username timestamp now problems_data in
  let stats_file := path_join user_dir "stats.json" in
  call (WriteJson stats_file (StatsJson stats));;
  ret (mkResp
         (SuccessBody ("Data saved for user " +:+ username)
            (total_solved problems_data) (total_problems problems_data)
            solved_file unsolved_file stats_file)
         200).

(** Lines 237-312: the [try] block after [driver = setup_driver()]. *)
Definition scrape_steps (driver : Driver) (user_number : nat) : M Response :=
  let wait := mkWait driver 20 in
  let username_key := "CF_USERNAME_" +:+ pretty user_number in
  let password_key := "CF_PASSWORD_" +:+ pretty user_number in
  match PyStr.truthy (environ username_key), PyStr.truthy (environ password_key) with
  | Some username, Some password =>
      user_dir ← ensure_user_directory username;
      '(success, message) ← login_to_cses driver wait username password;
      if negb success then ret (mkResp (ErrorBody message) 401) else
      problems_data ← scrape_problem_data driver wait;
      match problems_data with
      | inl message => ret (mkResp (ErrorBody message) 500)
      | inr problems_data => save_snapshot username user_dir problems_data
      end
  | _, _ =>
      ret (mkResp (ErrorBody ("User " +:+ pretty user_number +:+ " credentials not found")) 404)
  end.

Definition server_error (e : Exception) : M Response :=
  ret (mkResp (ErrorBody (exc_str e)) 500).

(** The route [/scrape/<int:user_number>]. [driver = setup_driver()] is the
    first statement of the [try] block: when it raises, [driver] is still
    [None] in the handler and in the [finally] block; when it returns, the
    variable holds the session until the end, and a session object is true. *)
Definition scrape (user_number : nat) : M Response :=
  started ← attempt setup_driver;
  match started with
  | inl e => server_error e
  | inr driver =>
      try_finally
        (try_except (scrape_steps driver user_number) server_error)
        (call (Quit driver))
  end.

(** Every event of every run of [m] satisfies [P]. *)
Definition emits {A} (P : Event → Prop) (m : M A) : Prop :=
  ∀ env, Forall P (trace_of (m env)).

(** Every value a run of [m] returns satisfies [Q]. *)
Definition returns {A} (Q : A → Prop) (m : M A) : Prop :=
  ∀ env a, outcome (m env) = inr a → Q a.

End Pipeline.

Arguments ret {Env A} _ _.
Arguments raise {Env A} _ _.
Arguments bind {Env A B} _ _ _.
Arguments try_except {Env A} _ _ _.
Arguments try_finally {Env A} _ _ _.
Arguments attempt {Env A} _ _.
Arguments print {Env} _ _.
Arguments call {Env} oracle {T} _ _.
Arguments for_each {Env A X} _ _ _ _.
Arguments emits {Env A} _ _.
Arguments returns {Env A} _ _.
Arguments setup_driver {Env} _ _.
Arguments ensure_user_directory {Env} _ _ _.
Arguments login_steps {Env} _ _ _ _ _ _.
Arguments login_to_cses {Env} _ _ _ _ _ _.
Arguments read_problem {Env} _ _ _ _.
Arguments problem_iteration {Env} _ _ _ _ _.
Arguments read_section {Env} _ _ _.
Arguments section_iteration {Env} _ _ _ _.
Arguments extract_lists {Env} _ _ _ _.
Arguments scrape_problem_data {Env} _ _ _ _.
Arguments save_snapshot {Env} _ _ _ _ _.
Arguments scrape_steps {Env} _ _ _ _ _.
Arguments server_error {Env} _ _.
Arguments scrape {Env} _ _ _ _.
Arguments entry_outcomes {Env} _ _ _ _.
Arguments section_outcomes {Env} _ _ _.

(** ** The extractor with a fallible [print] and its two lists in the store

    [print] writes to the standard output and raises when that fails
    (closed stream, broken pipe, encoding error); the lists
    [solved_problems] and [unsolved_problems] are objects that keep what
    was appended when an exception passes. Both are made explicit here:
    the state is the outside world together with the two lists, and the
    handlers call the world to print. *)

Section ExtractorIO.

Variable Env : Type.
Variable oracle : ∀ T, Call T → Env → Env * (Exception + T).
Variable environ : string → option string.

#[local] Existing Instance M_ret.
#[local] Existing Instance M_bind.

(** The outside world and the lists [solved_problems], [unsolved_problems]. *)
Definition Store : Type := Env * Lists.

(** The world answers as before; the lists are not its concern. *)
Definition on_store (T : Type) (c : Call T) (st : Store) : Store * (Exception + T) :=
  match oracle T c st.1 with
  | (env1, r) => ((env1, st.2), r)
  end.

Definition print_io (line : string) : M Store unit := call on_store (Print line).

(** Lines 207-210 on the lists of the store. *)
Definition append_io (r : ProblemRecord) : M Store unit := λ st,
  ((st.1, append_problem st.2 r), [], inr tt).

(** Lines 179-180. *)
Definition new_lists : M Store unit := λ st, ((st.1, ([], [])), [], inr tt).

(** The lists as they stand. *)
Definition read_lists : M Store Lists := λ st, (st, [], inr st.2).

(** One turn of the inner loop, lines 190-214. *)
Definition problem_iteration_io (section_name : string) (problem : Element)
  : M Store unit :=
  try_except
    (r ← read_problem on_store section_name problem; append_io r)
    (λ e, print_io ("Error processing problem: " +:+ exc_str e)).

(** One turn of the outer loop, lines 185-218. *)
Definition section_iteration_io (task_list : Element) : M Store unit :=
  try_except
    ('(section_name, problems) ← read_section on_store task_list;
     for_each problems (λ _ problem, problem_iteration_io section_name problem) tt)
    (λ e, print_io ("Error processing section: " +:+ exc_str e)).

(** Lines 174-218. *)
Definition extract_lists_io (driver : Driver) (wait : Wait) : M Store Lists :=
  call on_store (Get driver "https://cses.fi/problemset/list/");;
  call on_store (SleepUniform 3 5);;
  call on_store (UntilPresent wait By_CLASS_NAME "task-list");;
  new_lists;;
  task_lists ← call on_store (DriverFindElements driver By_CLASS_NAME "task-list");
  for_each task_lists (λ _ task_list, section_iteration_io task_list) tt;;
  read_lists.

(** [scrape_problem_data], lines 171-230. *)
Definition scrape_problem_data_io (driver : Driver) (wait : Wait)
  : M Store (string + ProblemsData) :=
  try_except
    ('(solved_problems, unsolved_problems) ← extract_lists_io driver wait;
     if is_empty solved_problems && is_empty unsolved_problems
     then ret (inl "No problems found on the page")
     else ret (inr (Aggregator.problems_data solved_problems unsolved_problems)))
    (λ e, ret (inl ("Scraping error: " +:+ exc_str e))).

(** Lines 237-312 of [scrape] with this extractor; the other steps ask the
    world and leave the lists alone. *)
Definition scrape_steps_io (driver : Driver) (user_number : nat) : M Store Response :=
  let wait := mkWait driver 20 in
  let username_key := "CF_USERNAME_" +:+ pretty user_number in
  let password_key := "CF_PASSWORD_" +:+ pretty user_number in
  match PyStr.truthy (environ username_key), PyStr.truthy (environ password_key) with
  | Some username, Some password =>
      user_dir ← ensure_user_directory on_store username;
      '(success, message) ← login_to_cses on_store driver wait username password;
      if negb success then ret (mkResp (ErrorBody message) 401) else
      problems_data ← scrape_problem_data_io driver wait;
      match problems_data with
      | inl message => ret (mkResp (ErrorBody message) 500)
      | inr problems_data => save_snapshot on_store username user_dir problems_data
      end
  | _, _ =>
      ret (mkResp (ErrorBody ("User " +:+ pretty user_number +:+ " credentials not found")) 404)
  end.

(** The route [/scrape/<int:user_number>], lines 233-318. *)
Definition scrape_io (user_number : nat) : M Store Response :=
  started ← attempt (setup_driver on_store);
  match started with
  | inl e => server_error e
  | inr driver =>
      try_finally
        (try_except (scrape_steps_io driver user_number) server_error)
        (call on_store (Quit driver))
  end.

(** The world after the line of a failed unit has been printed. *)
Definition after_print (line : string) (env : Env) : Env :=
  (oracle () (Print line) env).1.

(** The partial-extraction policy with the printed lines: every entry is
    read in turn, and the line of a failed one is printed before the next
    is read. *)
Fixpoint entry_outcomes_io (section_name : string) (problems : list Element) (env : Env)
  : list (Exception + ProblemRecord) * Env :=
  match problems with
  | [] => ([], env)
  | problem :: rest =>
      let r := read_problem oracle section_name problem env in
      let env1 := match outcome r with
                  | inl e => after_print ("Error processing problem: " +:+ exc_str e)
                               (final_env r)
                  | inr _ => final_env r
                  end in
      let '(os, env') := entry_outcomes_io section_name rest env1 in
      (outcome r :: os, env')
  end.

Fixpoint section_outcomes_io (task_lists : list Element) (env : Env)
  : list (Exception + list (Exception + ProblemRecord)) * Env :=
  match task_lists with
  | [] => ([], env)
  | task_list :: rest =>
      let r := read_section oracle task_list env in
      match outcome r with
      | inl e =>
          let '(os, env') :=
            section_outcomes_io rest
              (after_print ("Error processing section: " +:+ exc_str e) (final_env r)) in
          (inl e :: os, env')
      | inr (section_name, problems) =>
          let '(eos, env1) := entry_outcomes_io section_name problems (final_env r) in
          let '(os, env') := section_outcomes_io rest env1 in
          (inr eos :: os, env')
      end
  end.

(** Printing never raises in this world. *)
Definition print_never_raises : Prop :=
  ∀ line env, (oracle () (Print line) env).2 = inr tt.

(** Printing never raises and changes nothing the other calls depend on. *)
Definition print_is_silent : Prop :=
  ∀ line env, oracle () (Print line) env = (env, inr tt).

End ExtractorIO.

Arguments Store _ : clear implicits.
Arguments on_store {Env} _ _ _ _.
Arguments print_io {Env} _ _ _.
Arguments append_io {Env} _ _.
Arguments new_lists {Env} _.
Arguments read_lists {Env} _.
Arguments problem_iteration_io {Env} _ _ _ _.
Arguments section_iteration_io {Env} _ _ _.
Arguments extract_lists_io {Env} _ _ _ _.
Arguments scrape_problem_data_io {Env} _ _ _ _.
Arguments scrape_steps_io {Env} _ _ _ _ _.
Arguments scrape_io {Env} _ _ _ _.
Arguments after_print {Env} _ _ _.
Arguments entry_outcomes_io {Env} _ _ _ _.
Arguments section_outcomes_io {Env} _ _ _.
Arguments print_never_raises {Env} _.
Arguments print_is_silent {Env} _.

(** ** Leaderboard reader *)

Module PySort.

(** [list.sort(key=key, reverse=True)]: a stable sort into descending key
    order. An element taken from further left is put in front of the
    elements with the same key that are already placed. *)
Fixpoint insert_desc {A} (key : A → nat) (x : A) (l : list A) : list A :=
  match l with
  | [] => [x]
  | y :: l' =>
      if Nat.ltb (key x) (key y) then y :: insert_desc key x l'
      else x :: y :: l'
  end.

Definition sort_desc {A} (key : A → nat) (l : list A) : list A :=
  foldr (insert_desc key) [] l.

End PySort.

Section Leaderboard.

(** Python floats are kept abstract. [int_truediv a b] is [a / b] for a
    non-zero [b] (the nearest double, or [OverflowError]); [float_mul x n]
    is [x * n]. *)
Variable pyfloat : Type.
Variable int_truediv : Z → Z → Exception + pyfloat.
Variable float_mul : pyfloat → Z → pyfloat.

Definition ZeroDivisionError : Exception :=
  mkExc "ZeroDivisionError" "division by zero".

(** [a / b] on integers. *)
Definition truediv (a b : Z) : Exception + pyfloat :=
  if decide (b = 0%Z) then inl ZeroDivisionError else int_truediv a b.

(** One entry of [BASE_DATA_DIR.iterdir()]: whether it is a directory and,
    when it holds a [stats.json], what opening and parsing it gives. *)
Record DirEntry := mkEntry {
  is_dir : bool;
  stats_json : option (Exception + UserStats)
}.

(** A stats dictionary with its [progress] key. *)
Record Ranked := mkRanked {
  stats : UserStats;
  progress : pyfloat
}.

(** Line 330. *)
Definition with_progress (st : UserStats) : Exception + Ranked :=
  match truediv (Z.of_nat (solved_count st)) (Z.of_nat (total_count st)) with
  | inl e => inl e
  | inr q => inr (mkRanked st (float_mul q 100))
  end.

(** The loop of lines 324-331. *)
Fixpoint read_users (entries : list DirEntry) (users_data : list Ranked)
  : Exception + list Ranked :=
  match entries with
  | [] => inr users_data
  | user_dir :: rest =>
      if is_dir user_dir then
        match stats_json user_dir with
        | None => read_users rest users_data
        | Some (inl e) => inl e
        | Some (inr st) =>
            match with_progress st with
            | inl e => inl e
            | inr u => read_users rest (users_data ++ [u])
            end
        end
      else read_users rest users_data
  end.

(** The route [/leaderboard]: the users handed to the template, or the
    error response. [listing] is what [iterdir()] yields or raises. *)
Definition leaderboard (listing : Exception + list DirEntry) : Response + list Ranked :=
  match listing with
  | inl e => inl (mkResp (ErrorBody (exc_str e)) 500)
  | inr entries =>
      match read_users entries [] with
      | inl e => inl (mkResp (ErrorBody (exc_str e)) 500)
      | inr users_data =>
          inr (PySort.sort_desc (λ x, solved_count (stats x)) users_data)
      end
  end.

(** The stats files of a listing that the loop reads, in discovery order. *)
Definition stored_stats (entries : list DirEntry) : list UserStats :=
  omap (λ d, if is_dir d then
               match stats_json d with Some (inr st) => Some st | _ => None end
             else None) entries.

(** The loop gets past entry [d]: it is skipped, or its file parses and
    its progress is a float. *)
Definition readable (d : DirEntry) : bool :=
  negb (is_dir d) ||
  match stats_json d with
  | None => true
  | Some (inl _) => false
  | Some (inr st) =>
      match with_progress st with
      | inl _ => false
      | inr _ => true
      end
  end.

End Leaderboard.

Arguments mkEntry _ _ : clear implicits.
Arguments truediv {pyfloat} _ _ _.
Arguments with_progress {pyfloat} _ _ _.
Arguments read_users {pyfloat} _ _ _ _.
Arguments leaderboard {pyfloat} _ _ _.
Arguments readable {pyfloat} _ _ _.
Arguments mkRanked {pyfloat} _ _.
Arguments stats {pyfloat} _.
Arguments progress {pyfloat} _.

(** ** Sample environments *)

Module Sample.

(** An answer of the right type for every call. *)
Definition plain_answer {T} (c : Call T) : T :=
  match c in Call T return T with
  | ChromeNew _ => 1
  | ImplicitlyWait _ _ => tt
  | Quit _ => tt
  | Get _ _ => tt
  | Title _ => "CSES - Problem Set"
  | SleepUniform _ _ => tt
  | UntilPresent _ _ _ => 2
  | UntilClickable _ _ _ => 3
  | Clear _ => tt
  | SendKeys _ _ => tt
  | Click _ => tt
  | DriverFindElements _ _ _ => []
  | FindElement _ _ _ => 4
  | FindElements _ _ _ => []
  | Text _ => ""
  | GetAttribute _ _ => None
  | Mkdir _ => tt
  | WriteJson _ _ => tt
  | Strftime _ => "20240101_120000"
  | Print _ => tt
  end.

(** A site that accepts the login and lists no problem at all. *)
Definition empty_site (T : Type) (c : Call T) (env : unit) : unit * (Exception + T) :=
  (tt, inr (plain_answer c)).

Definition NoSuchElement : Exception :=
  mkExc "NoSuchElementException" "no such element".

Definition TimeoutException : Exception :=
  mkExc "TimeoutException" "timed out".

(** A site with two sections. Section 10 has no heading. Section 20,
    "Graph Algorithms", lists entries 21 (solved), 22 (no anchor) and
    23 (unsolved). The environment counts the calls answered. *)
Definition graph_site (T : Type) (c : Call T) (env : nat) : nat * (Exception + T) :=
  (S env,
   match c in Call T return Exception + T with
   | DriverFindElements _ _ _ => inr [10; 20]
   | FindElement e _ _ =>
       if decide (e = 10 ∨ e = 22) then inl NoSuchElement else inr (100 + e)
   | FindElements e _ _ => inr (if decide (e = 20) then [21; 22; 23] else [])
   | Text e =>
       inr (if decide (e = 120) then "Graph Algorithms"
            else if decide (e = 121) then "Counting Rooms"
            else if decide (e = 123) then "Labyrinth"
            else "")
   | GetAttribute e attr =>
       inr (if decide (attr = "href") then Some "https://cses.fi/problemset/task/1192"
            else if decide (e = 21) then Some "task full"
            else Some "task")
   | c => inr (plain_answer c)
   end).

(** A site whose login form never shows up. *)
Definition stalled_site (T : Type) (c : Call T) (env : unit) : unit * (Exception + T) :=
  (tt,
   match c in Call T return Exception + T with
   | UntilPresent _ _ _ => inl TimeoutException
   | c => inr (plain_answer c)
   end).

(** A site that shows the login page again after the form is sent. *)
Definition refusing_site (T : Type) (c : Call T) (env : unit) : unit * (Exception + T) :=
  (tt,
   match c in Call T return Exception + T with
   | Title _ => inr "CSES - Login"
   | c => inr (plain_answer c)
   end).

(** A browser that starts and then rejects the first command it is sent. *)
Definition crashing_site (T : Type) (c : Call T) (env : unit) : unit * (Exception + T) :=
  (tt,
   match c in Call T return Exception + T with
   | ImplicitlyWait _ _ => inl (mkExc "WebDriverException" "chrome not reachable")
   | c => inr (plain_answer c)
   end).

(** A disk on which no directory can be created. *)
Definition readonly_disk (T : Type) (c : Call T) (env : unit) : unit * (Exception + T) :=
  (tt,
   match c in Call T return Exception + T with
   | Mkdir _ => inl (mkExc "PermissionError" "[Errno 13] Permission denied")
   | c => inr (plain_answer c)
   end).

(** The page of [graph_site] shown to a process whose standard output is
    a broken pipe. *)
Definition BrokenPipeError : Exception :=
  mkExc "BrokenPipeError" "[Errno 32] Broken pipe".

Definition mute_site (T : Type) (c : Call T) (env : nat) : nat * (Exception + T) :=
  match c in Call T return nat * (Exception + T) with
  | Print _ => (S env, inl BrokenPipeError)
  | c => graph_site _ c env
  end.

(** The page of [graph_site] in a world without a state of its own. *)
Definition quiet_site (T : Type) (c : Call T) (env : unit) : unit * (Exception + T) :=
  (tt, (graph_site T c 0).2).

(** Credentials for user 1 only. *)
Definition one_user (key : string) : option string :=
  if decide (key = "CF_USERNAME_1") then Some "alice"
  else if decide (key = "CF_PASSWORD_1") then Some "secret"
  else None.

(** Exact rationals standing in for floats. *)
Definition q_truediv (a b : Z) : Exception + Qc :=
  inr (Qc_of_Z a / Qc_of_Z b)%Qc.

Definition q_mul (x : Qc) (n : Z) : Qc := (x * Qc_of_Z n)%Qc.

Definition intro (n : string) (s : bool) : ProblemRecord :=
  mkProblem n None "Intro" s.

Definition user (u : string) (s t : nat) : UserStats :=
  mkStats u "20240101_120000" s t "2024-01-01 12:00:00" ∅.

End Sample.


(** ** Auxiliary notions for the further facts *)

Module Aux.

(** No character of [s] is one that [str.split()] cuts at. *)
Fixpoint no_blank (s : string) : bool :=
  match s with
  | EmptyString => true
  | String a s' => negb (PyStr.is_space a) && no_blank s'
  end.

(** The lines a run printed, in order. *)
Definition printed (t : list Event) : list string :=
  omap (λ ev, match ev with EvPrint line => Some line | _ => None end) t.

(** The files a run tried to write, in order: path, content, and whether
    the write went through. *)
Definition file_write (ev : Event) : option (string * FileContent * bool) :=
  match ev with
  | @EvCall T c r =>
      match c in Call T return (Exception + T) → option (string * FileContent * bool) with
      | WriteJson path content =>
          λ r, Some (path, content, match r with inl _ => false | inr _ => true end)
      | _ => λ _, None
      end r
  | EvPrint _ => None
  end.

Definition file_writes (t : list Event) : list (string * FileContent * bool) :=
  omap file_write t.

(** The solved list first, then the unsolved list, then the stats, and
    nothing after a write that failed. *)
Definition ordered_writes (ws : list (string * FileContent * bool)) : bool :=
  match ws with
  | [] => true
  | [(_, SolvedJson _ _, _)] => true
  | [(_, SolvedJson _ _, true); (_, UnsolvedJson _ _, _)] => true
  | [(_, SolvedJson _ _, true); (_, UnsolvedJson _ _, true); (_, StatsJson _, _)] => true
  | _ => false
  end.

(** No write of a stats file went through among [ws]. *)
Definition stats_unsaved (ws : list (string * FileContent * bool)) : Prop :=
  Forall (λ w, ∀ path st, w ≠ (path, StatsJson st, true)) ws.

(** The entries the leaderboard loop opens a stats file for. *)
Definition has_stats (d : DirEntry) : bool :=
  is_dir d && match stats_json d with Some _ => true | None => false end.

(** The keys sent to the page, in order, with the element they went to. *)
Definition keys_sent (t : list Event) : list (Element * string) :=
  omap (λ ev, match ev with
              | EvCall (SendKeys e keys) _ => Some (e, keys)
              | _ => None
              end) t.

(** The exception an event ended with, if any. *)
Definition raised (ev : Event) : option Exception :=
  match ev with
  | EvCall _ (inl e) => Some e
  | _ => None
  end.

Definition is_print (ev : Event) : bool :=
  match ev with
  | EvCall (Print _) _ => true
  | _ => false
  end.

(** A call of [print] read as the line it prints. *)
Definition as_printed (ev : Event) : Event :=
  match ev with
  | EvCall (Print line) _ => EvPrint line
  | _ => ev
  end.

(** Two runs with the same outcome, the same world afterwards and the same
    events, each [print] of the first read as its line. *)
Definition same_answer {Env A}
    (r_io : Store Env * list Event * (Exception + A))
    (r : Env * list Event * (Exception + A)) : Prop :=
  outcome r_io = outcome r
  ∧ (final_env r_io).1 = final_env r
  ∧ as_printed <$> trace_of r_io = trace_of r.

(** A computation over the world and the lists that answers as [m] does
    over the world, whatever the lists hold. *)
Definition agree {Env A} (m_io : M (Store Env) A) (m : M Env A) : Prop :=
  ∀ env lists, same_answer (m_io (env, lists)) (m env).

(** A run over the world and the two lists does what a run that is handed
    the lists and returns them does: same world and lists at the end, same
    events with each [print] read as its line, and no exception. *)
Definition same_run {Env}
    (r_io : Store Env * list Event * (Exception + unit))
    (r : Env * list Event * (Exception + Lists)) : Prop :=
  outcome r_io = inr tt
  ∧ outcome r = inr (final_env r_io).2
  ∧ (final_env r_io).1 = final_env r
  ∧ as_printed <$> trace_of r_io = trace_of r.

End Aux.

(** ** Facts about the aggregator *)

Section AggregatorFacts.
Import Aggregator.

Lemma count_in_nil s : count_in s [] = 0.
Proof. reflexivity. Qed.

Lemma count_in_cons s p l :
  count_in s (p :: l) = (if decide (section p = s) then 1 else 0) + count_in s l.
Proof.
  unfold count_in. rewrite filter_cons. by case_decide.
Qed.

Lemma count_in_app s l1 l2 :
  count_in s (l1 ++ l2) = count_in s l1 + count_in s l2.
Proof. unfold count_in. by rewrite filter_app, length_app. Qed.

Lemma ensure_section_lookup s m :
  ensure_section s m !! s = Some (default (mkCount 0 0) (m !! s)).
Proof.
  unfold ensure_section. destruct (m !! s) eqn:E; simpl.
  - done.
  - by rewrite lookup_insert_eq.
Qed.

Lemma ensure_section_lookup_ne s s' m :
  s ≠ s' → ensure_section s m !! s' = m !! s'.
Proof.
  intros Hne. unfold ensure_section. destruct (m !! s); [done|].
  by rewrite lookup_insert_ne.
Qed.

Lemma solved_step_lookup m p :
  solved_step m p !! section p
  = Some (bump_solved (default (mkCount 0 0) (m !! section p))).
Proof.
  unfold solved_step. by rewrite lookup_alter_eq, ensure_section_lookup.
Qed.

Lemma solved_step_lookup_ne m p s :
  section p ≠ s → solved_step m p !! s = m !! s.
Proof.
  intros Hne. unfold solved_step.
  by rewrite lookup_alter_ne, ensure_section_lookup_ne.
Qed.

Lemma total_step_lookup m p :
  total_step m p !! section p
  = Some (bump_total (default (mkCount 0 0) (m !! section p))).
Proof.
  unfold total_step. by rewrite lookup_alter_eq, ensure_section_lookup.
Qed.

Lemma total_step_lookup_ne m p s :
  section p ≠ s → total_step m p !! s = m !! s.
Proof.
  intros Hne. unfold total_step.
  by rewrite lookup_alter_ne, ensure_section_lookup_ne.
Qed.

Local Ltac count_eq :=
  unfold bump_solved, bump_total; cbn; f_equal; f_equal; lia.

(** What a whole pass does to the entry of one section. *)
Lemma solved_pass_lookup l : ∀ m s,
  solved_pass l m !! s =
    if decide (count_in s l = 0) then m !! s
    else let d := default (mkCount 0 0) (m !! s) in
         Some (mkCount (sec_solved d + count_in s l) (sec_total d)).
Proof.
  induction l as [|p l IH]; intros m s.
  - done.
  - unfold solved_pass in *. cbn [fold_left]. rewrite IH, count_in_cons.
    destruct (decide (section p = s)) as [<-|Hne].
    + rewrite solved_step_lookup. cbn [default].
      destruct (decide (count_in (section p) l = 0)) as [E|E];
        [rewrite E|]; rewrite decide_False by lia; count_eq.
    + rewrite solved_step_lookup_ne by done. cbn.
      by destruct (decide (count_in s l = 0)).
Qed.

Lemma total_pass_lookup l : ∀ m s,
  total_pass l m !! s =
    if decide (count_in s l = 0) then m !! s
    else let d := default (mkCount 0 0) (m !! s) in
         Some (mkCount (sec_solved d) (sec_total d + count_in s l)).
Proof.
  induction l as [|p l IH]; intros m s.
  - done.
  - unfold total_pass in *. cbn [fold_left]. rewrite IH, count_in_cons.
    destruct (decide (section p = s)) as [<-|Hne].
    + rewrite total_step_lookup. cbn [default].
      destruct (decide (count_in (section p) l = 0)) as [E|E];
        [rewrite E|]; rewrite decide_False by lia; count_eq.
    + rewrite total_step_lookup_ne by done. cbn.
      by destruct (decide (count_in s l = 0)).
Qed.

Lemma section_stats_lookup pd s :
  section_stats pd !! s =
    if decide (count_in s (pd_solved pd ++ pd_unsolved pd) = 0) then None
    else Some (mkCount (count_in s (pd_solved pd))
                       (count_in s (pd_solved pd ++ pd_unsolved pd))).
Proof.
  unfold section_stats. rewrite total_pass_lookup, solved_pass_lookup.
  rewrite lookup_empty. rewrite count_in_app.
  destruct (decide (count_in s (pd_solved pd) = 0)) as [E|E].
  - rewrite E. done.
  - rewrite !decide_False by lia. done.
Qed.

(** Sums over the dictionary follow insertions and in-place updates. *)
Lemma sum_by_empty field : sum_by field ∅ = 0.
Proof. unfold sum_by. by rewrite map_fold_empty. Qed.

Lemma sum_by_insert_fresh field s c (m : gmap string SectionCount) :
  m !! s = None → sum_by field (<[s:=c]> m) = field c + sum_by field m.
Proof.
  intros Hs. unfold sum_by. rewrite map_fold_insert_L; [done| |done].
  intros; lia.
Qed.

Lemma sum_by_present field s c (m : gmap string SectionCount) :
  m !! s = Some c → sum_by field m = field c + sum_by field (delete s m).
Proof.
  intros Hs. unfold sum_by. rewrite (map_fold_delete_L _ _ s c m); [done| |done].
  intros; lia.
Qed.

Lemma sum_by_alter field f s c (m : gmap string SectionCount) :
  m !! s = Some c →
  sum_by field (alter f s m) + field c = field (f c) + sum_by field m.
Proof.
  intros Hs.
  rewrite (sum_by_present field s c m Hs).
  rewrite (sum_by_present field s (f c) (alter f s m))
    by (by rewrite lookup_alter_eq, Hs).
  rewrite delete_alter_eq. lia.
Qed.

(** One loop iteration that adds [k] to [field] of the record's section
    adds [k] to the sum. *)
Lemma sum_by_step field f k s m :
  field (mkCount 0 0) = 0 →
  (∀ c, field (f c) = k + field c) →
  sum_by field (alter f s (ensure_section s m)) = k + sum_by field m.
Proof.
  intros Hz Hf.
  pose proof (sum_by_alter field f s _ _ (ensure_section_lookup s m)) as Ha.
  rewrite Hf in Ha.
  assert (sum_by field (ensure_section s m)
          = field (default (mkCount 0 0) (m !! s)) - field (default (mkCount 0 0) (m !! s))
            + sum_by field m) as He.
  { unfold ensure_section. destruct (m !! s) eqn:E; cbn.
    - lia.
    - rewrite sum_by_insert_fresh by done. lia. }
  lia.
Qed.

Lemma sum_solved_solved_step m p :
  sum_solved (solved_step m p) = S (sum_solved m).
Proof. apply (sum_by_step sec_solved bump_solved 1); done. Qed.

Lemma sum_total_solved_step m p :
  sum_total (solved_step m p) = sum_total m.
Proof. apply (sum_by_step sec_total bump_solved 0); done. Qed.

Lemma sum_solved_total_step m p :
  sum_solved (total_step m p) = sum_solved m.
Proof. apply (sum_by_step sec_solved bump_total 0); done. Qed.

Lemma sum_total_total_step m p :
  sum_total (total_step m p) = S (sum_total m).
Proof. apply (sum_by_step sec_total bump_total 1); done. Qed.

Lemma sums_solved_pass l : ∀ m,
  sum_solved (solved_pass l m) = length l + sum_solved m
  ∧ sum_total (solved_pass l m) = sum_total m.
Proof.
  induction l as [|p l IH]; intros m; [done|].
  unfold solved_pass in *. cbn [fold_left length].
  destruct (IH (solved_step m p)) as [-> ->].
  rewrite sum_solved_solved_step, sum_total_solved_step. lia.
Qed.

Lemma sums_total_pass l : ∀ m,
  sum_solved (total_pass l m) = sum_solved m
  ∧ sum_total (total_pass l m) = length l + sum_total m.
Proof.
  induction l as [|p l IH]; intros m; [done|].
  unfold total_pass in *. cbn [fold_left length].
  destruct (IH (total_step m p)) as [-> ->].
  rewrite sum_solved_total_step, sum_total_total_step. lia.
Qed.

Lemma sums_section_stats pd :
  sum_solved (section_stats pd) = length (pd_solved pd)
  ∧ sum_total (section_stats pd) = length (pd_solved pd) + length (pd_unsolved pd).
Proof.
  unfold section_stats.
  destruct (sums_total_pass (pd_solved pd ++ pd_unsolved pd)
              (solved_pass (pd_solved pd) ∅)) as [-> ->].
  destruct (sums_solved_pass (pd_solved pd) ∅) as [-> ->].
  unfold sum_solved, sum_total. rewrite !sum_by_empty, length_app. lia.
Qed.

Lemma count_in_solved_le s l1 l2 : count_in s l1 ≤ count_in s (l1 ++ l2).
Proof. rewrite count_in_app. lia. Qed.

(** C1 (as amended): the counters are built in two passes. A step of the
    first pass adds one to the [solved] counter of the record's section and
    leaves its [total] counter and every other section alone; a step of the
    second pass adds one to the [total] counter of the record's section and
    leaves its [solved] counter and every other section alone. From any
    dictionary, the first pass over [l] adds to the [solved] counter of
    each section the number of records of [l] filed under it, and the
    second pass adds that number to the [total] counter; a section with no
    record in [l] keeps its entry, or its absence. The first pass runs over
    the solved records and the second over the solved records followed by
    the unsolved ones, so each section ends with [solved] the number of its
    solved records and [total] the number of its records, each counted
    once; a lone solved record ends with [solved = 1] and [total = 1]. *)
Theorem two_pass_counters :
  (∀ m p, let d := default (mkCount 0 0) (m !! section p) in
      solved_step m p !! section p = Some (mkCount (S (sec_solved d)) (sec_total d))
      ∧ total_step m p !! section p = Some (mkCount (sec_solved d) (S (sec_total d))))
  ∧ (∀ m p s, s ≠ section p →
      solved_step m p !! s = m !! s ∧ total_step m p !! s = m !! s)
  ∧ (∀ l m s, let d := default (mkCount 0 0) (m !! s) in
      solved_pass l m !! s
      = if decide (count_in s l = 0) then m !! s
        else Some (mkCount (sec_solved d + count_in s l) (sec_total d)))
  ∧ (∀ l m s, let d := default (mkCount 0 0) (m !! s) in
      total_pass l m !! s
      = if decide (count_in s l = 0) then m !! s
        else Some (mkCount (sec_solved d) (sec_total d + count_in s l)))
  ∧ (∀ pd, section_stats pd
           = total_pass (pd_solved pd ++ pd_unsolved pd) (solved_pass (pd_solved pd) ∅))
  ∧ (∀ pd s, section_stats pd !! s
             = if decide (count_in s (pd_solved pd) + count_in s (pd_unsolved pd) = 0)
               then None
               else Some (mkCount (count_in s (pd_solved pd))
                            (count_in s (pd_solved pd) + count_in s (pd_unsolved pd))))
  ∧ (∀ p, section_stats (problems_data [p] []) = {[ section p := mkCount 1 1 ]}).
Proof.
  split; [|split; [|split; [|split; [|split; [|split]]]]].
  - intros m p d. split; [apply solved_step_lookup|apply total_step_lookup].
  - intros m p s Hne.
    split; [by apply solved_step_lookup_ne|by apply total_step_lookup_ne].
  - intros l m s d. apply solved_pass_lookup.
  - intros l m s d. apply total_pass_lookup.
  - done.
  - intros pd s. rewrite section_stats_lookup, count_in_app.
    by destruct (decide (_ = 0)).
  - intros p. apply map_eq. intros s. rewrite section_stats_lookup.
    unfold problems_data. cbn [pd_solved pd_unsolved].
    rewrite app_nil_r, count_in_cons, count_in_nil.
    destruct (decide (section p = s)) as [<-|Hne].
    + by rewrite lookup_singleton_eq.
    + by rewrite lookup_singleton_ne.
Qed.

(** C1, the claim as worded fails on one solved record: the first pass
    leaves the total of its section at 0 and the section ends with total 1,
    where counting the record in both passes gives 2. *)
Lemma two_pass_counterexample :
  let a := Sample.intro "A" true in
  solved_pass [a] ∅ !! "Intro" = Some (mkCount 1 0)
  ∧ section_stats (problems_data [a] []) !! "Intro" = Some (mkCount 1 1)
  ∧ spec_section_stats (problems_data [a] []) !! "Intro" = Some (mkCount 1 2).
Proof. vm_compute. done. Qed.

(** C3: for each section name, the [solved] counter is the number of solved
    records of that section and the [total] counter the number of records
    of that section among solved followed by unsolved; a section with no
    record has no entry, and one seen only among the unsolved records has
    [solved = 0]. Scenario 1 (solved A and B, unsolved C, all in Intro) and
    scenario 3 (D unsolved in Graphs) are the two closing instances. *)
Theorem aggregate_sections (s u : list ProblemRecord) (user ts now sec : string) :
  sections (aggregate s u user ts now) !! sec
    = (if decide (count_in sec (s ++ u) = 0) then None
       else Some (mkCount (count_in sec s) (count_in sec (s ++ u))))
  ∧ aggregate [Sample.intro "A" true; Sample.intro "B" true] [Sample.intro "C" false]
      user ts now
    = mkStats user ts 2 3 now {[ "Intro" := mkCount 2 3 ]}
  ∧ sections (aggregate [Sample.intro "A" true] [mkProblem "D" None "Graphs" false]
                user ts now) !! "Graphs"
    = Some (mkCount 0 1).
Proof.
  split; [|split].
  - apply section_stats_lookup.
  - unfold aggregate, build_stats. f_equal.
  - done.
Qed.

(** C4: the stats of a problem set have [solved_count = len(solved)] and
    [total_count = len(solved) + len(unsolved)]; the section totals sum to
    [total_count] and the section solved counters to [solved_count]; in
    every section [0 <= solved <= total], and [0 <= solved_count <=
    total_count]. *)
Theorem aggregate_invariants (s u : list ProblemRecord) (user ts now : string) :
  let st := aggregate s u user ts now in
  solved_count st = length s
  ∧ total_count st = length s + length u
  ∧ sum_total (sections st) = total_count st
  ∧ sum_solved (sections st) = solved_count st
  ∧ map_Forall (λ _ c, 0 ≤ sec_solved c ≤ sec_total c) (sections st)
  ∧ 0 ≤ solved_count st ≤ total_count st.
Proof.
  intros st. subst st. unfold aggregate, build_stats.
  cbn [solved_count total_count sections].
  destruct (sums_section_stats (problems_data s u)) as [Hs Ht].
  change (pd_solved (problems_data s u)) with s in Hs, Ht.
  change (pd_unsolved (problems_data s u)) with u in Ht.
  split; [done|]. split; [done|]. split; [done|]. split; [done|].
  split; [|cbn; lia].
  intros sec c Hc. rewrite section_stats_lookup in Hc.
  case_decide; [done|]. injection Hc as <-. cbn [sec_solved sec_total].
  split; [lia|apply count_in_solved_le].
Qed.

End AggregatorFacts.

(** ** Facts about the monad *)

Section PipelineFacts.

Context {Env : Type} (oracle : ∀ T, Call T → Env → Env * (Exception + T)).
Context (environ : string → option string).

#[local] Existing Instance M_ret.
#[local] Existing Instance M_bind.

Implicit Types env : Env.

Lemma run_eta {A} (r : Env * list Event * (Exception + A)) :
  r = (final_env r, trace_of r, outcome r).
Proof. by destruct r as [[??]?]. Qed.

Lemma bind_inl {A B} (m : M Env A) (k : A → M Env B) env e :
  outcome (m env) = inl e →
  (x ← m; k x) env = (final_env (m env), trace_of (m env), inl e).
Proof.
  unfold mbind, M_bind, bind. destruct (m env) as [[env1 t1] r]. cbn.
  by intros ->.
Qed.

Lemma bind_inr {A B} (m : M Env A) (k : A → M Env B) env a :
  outcome (m env) = inr a →
  (x ← m; k x) env
  = (final_env (k a (final_env (m env))),
     trace_of (m env) ++ trace_of (k a (final_env (m env))),
     outcome (k a (final_env (m env)))).
Proof.
  unfold mbind, M_bind, bind. destruct (m env) as [[env1 t1] r]. cbn.
  intros ->. by destruct (k a env1) as [[env2 t2] r2].
Qed.

Lemma try_except_inr {A} (m : M Env A) (h : Exception → M Env A) env a :
  outcome (m env) = inr a → try_except m h env = m env.
Proof.
  unfold try_except. destruct (m env) as [[env1 t1] r]. cbn. by intros ->.
Qed.

Lemma try_except_inl {A} (m : M Env A) (h : Exception → M Env A) env e :
  outcome (m env) = inl e →
  try_except m h env
  = (final_env (h e (final_env (m env))),
     trace_of (m env) ++ trace_of (h e (final_env (m env))),
     outcome (h e (final_env (m env)))).
Proof.
  unfold try_except. destruct (m env) as [[env1 t1] r]. cbn.
  intros ->. by destruct (h e env1) as [[env2 t2] r2].
Qed.

Lemma try_finally_run {A} (m : M Env A) (fin : M Env unit) env :
  try_finally m fin env
  = (final_env (fin (final_env (m env))),
     trace_of (m env) ++ trace_of (fin (final_env (m env))),
     match outcome (fin (final_env (m env))) with
     | inl e => inl e
     | inr _ => outcome (m env)
     end).
Proof.
  unfold try_finally. destruct (m env) as [[env1 t1] r]. cbn.
  by destruct (fin env1) as [[env2 t2] [e|[]]].
Qed.

Lemma call_run {T} (c : Call T) env :
  call oracle c env
  = ((oracle T c env).1, [EvCall c (oracle T c env).2], (oracle T c env).2).
Proof. unfold call. by destruct (oracle T c env). Qed.

(** *** What a run emits *)

Lemma emits_ret {A} P (a : A) : emits (Env:=Env) P (ret a).
Proof. intros env. constructor. Qed.

Lemma emits_raise {A} P e : emits (Env:=Env) (A:=A) P (raise e).
Proof. intros env. constructor. Qed.

Lemma emits_print (P : Event → Prop) line :
  P (EvPrint line) → emits (Env:=Env) P (print line).
Proof. intros HP env. cbn. by constructor. Qed.

Lemma emits_call {T} (P : Event → Prop) (c : Call T) :
  (∀ r, P (EvCall c r)) → emits P (call oracle c).
Proof. intros HP env. rewrite call_run. cbn. by constructor. Qed.

Lemma emits_bind {A B} P (m : M Env A) (k : A → M Env B) :
  emits P m → (∀ a, emits P (k a)) → emits P (x ← m; k x).
Proof.
  intros Hm Hk env. specialize (Hm env).
  destruct (outcome (m env)) as [e|a] eqn:E.
  - by rewrite (bind_inl _ _ _ _ E).
  - rewrite (bind_inr _ _ _ _ E). cbn. apply Forall_app. split; [done|apply Hk].
Qed.

Lemma emits_try_except {A} P (m : M Env A) (h : Exception → M Env A) :
  emits P m → (∀ e, emits P (h e)) → emits P (try_except m h).
Proof.
  intros Hm Hh env. specialize (Hm env).
  destruct (outcome (m env)) as [e|a] eqn:E.
  - rewrite (try_except_inl _ _ _ _ E). cbn. apply Forall_app. split; [done|apply Hh].
  - by rewrite (try_except_inr _ _ _ _ E).
Qed.

Lemma emits_try_finally {A} P (m : M Env A) (fin : M Env unit) :
  emits P m → emits P fin → emits P (try_finally m fin).
Proof.
  intros Hm Hf env. rewrite try_finally_run. cbn.
  apply Forall_app. split; [apply Hm|apply Hf].
Qed.

Lemma emits_for_each {A X} P (xs : list X) (body : A → X → M Env A) :
  (∀ acc x, emits P (body acc x)) → ∀ acc, emits P (for_each xs body acc).
Proof.
  intros Hb. induction xs as [|x xs IH]; intros acc; cbn [for_each].
  - apply emits_ret.
  - apply emits_bind; [apply Hb|apply IH].
Qed.

(** *** Login handshake *)

Ltac run_call :=
  match goal with
  | |- context [oracle ?T ?c ?env] =>
      let E := fresh "E" in
      destruct (oracle T c env) as [? [?|?]] eqn:E; cbn
  end.

Lemma login_steps_returns driver wait username password env res :
  outcome (login_steps oracle driver wait username password env) = inr res →
  ∃ title,
    last (trace_of (login_steps oracle driver wait username password env))
      = Some (EvCall (Title driver) (inr title))
    ∧ res = if PyStr.str_in "Login" title
            then (false, "Login failed. Please check credentials.")
            else (true, "Login successful").
Proof.
  unfold login_steps, mbind, M_bind, bind, call.
  repeat (run_call; try discriminate).
  match goal with H : oracle _ (Title _) _ = (_, inr ?s) |- _ =>
    destruct (PyStr.str_in "Login" s) eqn:Hs; cbn; intros [= <-]; exists s;
    rewrite Hs; done
  end.
Qed.

Lemma login_handler_run driver wait username password env :
  final_env (login_to_cses oracle driver wait username password env)
  = final_env (login_steps oracle driver wait username password env)
  ∧ trace_of (login_to_cses oracle driver wait username password env)
    = trace_of (login_steps oracle driver wait username password env)
  ∧ outcome (login_to_cses oracle driver wait username password env)
    = match outcome (login_steps oracle driver wait username password env) with
      | inl e => inr (false, "Login error: " +:+ exc_str e)
      | inr res => inr res
      end.
Proof.
  unfold login_to_cses.
  destruct (outcome (login_steps oracle driver wait username password env))
    as [e|res] eqn:E.
  - rewrite (try_except_inl _ _ _ _ E). cbn. by rewrite app_nil_r.
  - rewrite (try_except_inr _ _ _ _ E). by rewrite E.
Qed.

Lemma login_outcome driver wait username password env :
  ∃ flag message,
    outcome (login_to_cses oracle driver wait username password env)
    = inr (flag, message).
Proof.
  destruct (login_handler_run driver wait username password env) as (_ & _ & ->).
  destruct (outcome (login_steps oracle driver wait username password env))
    as [e|[flag message]]; eauto.
Qed.

(** C6: the login handshake never lets an exception out. Every run yields a
    pair of a flag and a message: [(False, "Login error: ...")] when a step
    of the form raises, and otherwise, with the title read last,
    [(False, "Login failed...")] when the title contains the word Login and
    [(True, "Login successful")] when it does not. The handler adds no call
    of its own. *)
Theorem login_never_raises driver wait username password env :
  let r := login_to_cses oracle driver wait username password env in
  let steps := login_steps oracle driver wait username password env in
  (∃ flag message, outcome r = inr (flag, message))
  ∧ final_env r = final_env steps
  ∧ trace_of r = trace_of steps
  ∧ match outcome steps with
    | inl e => outcome r = inr (false, "Login error: " +:+ exc_str e)
    | inr _ =>
        ∃ title, last (trace_of steps) = Some (EvCall (Title driver) (inr title))
          ∧ outcome r = inr (if PyStr.str_in "Login" title
                             then (false, "Login failed. Please check credentials.")
                             else (true, "Login successful"))
    end.
Proof.
  intros r steps. subst r steps.
  destruct (login_handler_run driver wait username password env) as (He & Ht & Ho).
  split; [apply login_outcome|]. split; [done|]. split; [done|].
  rewrite Ho.
  destruct (outcome (login_steps oracle driver wait username password env))
    as [e|res] eqn:E; [done|].
  destruct (login_steps_returns _ _ _ _ _ _ E) as (title & Hlast & ->). eauto.
Qed.

(** *** Problem extractor *)

Lemma problem_iteration_run section_name acc problem env :
  let r := read_problem oracle section_name problem env in
  final_env (problem_iteration oracle section_name acc problem env) = final_env r
  ∧ outcome (problem_iteration oracle section_name acc problem env)
    = inr (keep_entry acc (outcome r)).
Proof.
  intros r. subst r. unfold problem_iteration.
  destruct (outcome (read_problem oracle section_name problem env)) as [e|rec] eqn:E.
  - rewrite (try_except_inl _ _ _ _ (eq_trans (f_equal outcome (bind_inl _ _ _ _ E)) eq_refl)).
    rewrite (bind_inl _ _ _ _ E). done.
  - assert (outcome ((r ← read_problem oracle section_name problem;
                      ret (append_problem acc r)) env)
            = inr (append_problem acc rec)) as E'
      by (by rewrite (bind_inr _ _ _ _ E)).
    rewrite (try_except_inr _ _ _ _ E'), (bind_inr _ _ _ _ E). done.
Qed.

Lemma for_each_cons {A X} (body : A → X → M Env A) x xs acc env :
  for_each (x :: xs) body acc env = (acc' ← body acc x; for_each xs body acc') env.
Proof. done. Qed.

(** The inner loop files exactly the entries that could be read. *)
Lemma inner_loop_run section_name problems : ∀ acc env,
  final_env (for_each problems (problem_iteration oracle section_name) acc env)
  = (entry_outcomes oracle section_name problems env).2
  ∧ outcome (for_each problems (problem_iteration oracle section_name) acc env)
    = inr (fold_left keep_entry (entry_outcomes oracle section_name problems env).1 acc).
Proof.
  induction problems as [|p ps IH]; intros acc env; [done|].
  destruct (problem_iteration_run section_name acc p env) as [He Ho].
  rewrite for_each_cons, (bind_inr _ _ _ _ Ho). cbn [final_env outcome fst snd].
  rewrite He. cbn [entry_outcomes].
  destruct (IH (keep_entry acc (outcome (read_problem oracle section_name p env)))
              (final_env (read_problem oracle section_name p env))) as [-> ->].
  by destruct (entry_outcomes oracle section_name ps _).
Qed.


Lemma section_iteration_run acc task_list env :
  final_env (section_iteration oracle acc task_list env)
  = (section_outcomes oracle [task_list] env).2
  ∧ outcome (section_iteration oracle acc task_list env)
    = inr (fold_left keep_section (section_outcomes oracle [task_list] env).1 acc).
Proof.
  unfold section_iteration. cbn [section_outcomes].
  destruct (outcome (read_section oracle task_list env)) as [e|[name ps]] eqn:E.
  - rewrite (try_except_inl _ _ _ _ (eq_trans (f_equal outcome (bind_inl _ _ _ _ E)) eq_refl)).
    rewrite (bind_inl _ _ _ _ E). done.
  - destruct (inner_loop_run name ps acc (final_env (read_section oracle task_list env)))
      as [He Ho].
    assert (outcome (('(section_name, problems) ← read_section oracle task_list;
                      for_each problems (problem_iteration oracle section_name) acc) env)
            = inr (fold_left keep_entry
                     (entry_outcomes oracle name ps
                        (final_env (read_section oracle task_list env))).1 acc)) as E'
      by (by rewrite (bind_inr _ _ _ _ E)).
    rewrite (try_except_inr _ _ _ _ E'), (bind_inr _ _ _ _ E).
    cbn [final_env outcome fst snd]. rewrite He, Ho.
    by destruct (entry_outcomes oracle name ps _).
Qed.

Lemma outer_loop_run task_lists : ∀ acc env,
  final_env (for_each task_lists (section_iteration oracle) acc env)
  = (section_outcomes oracle task_lists env).2
  ∧ outcome (for_each task_lists (section_iteration oracle) acc env)
    = inr (fold_left keep_section (section_outcomes oracle task_lists env).1 acc).
Proof.
  induction task_lists as [|tl tls IH]; intros acc env; [done|].
  destruct (section_iteration_run acc tl env) as [He Ho].
  rewrite for_each_cons, (bind_inr _ _ _ _ Ho). cbn [final_env outcome fst snd].
  rewrite He. revert He Ho. cbn [section_outcomes]. intros _ _.
  destruct (outcome (read_section oracle tl env)) as [e|[name ps]].
  - cbn [fst snd fold_left keep_section].
    destruct (IH acc (final_env (read_section oracle tl env))) as [-> ->].
    by destruct (section_outcomes oracle tls _).
  - destruct (entry_outcomes oracle name ps _) as [eos env1].
    cbn [fst snd fold_left keep_section].
    destruct (IH (fold_left keep_entry eos acc) env1) as [-> ->].
    by destruct (section_outcomes oracle tls _).
Qed.

Lemma section_outcomes_length task_lists : ∀ env,
  length (section_outcomes oracle task_lists env).1 = length task_lists.
Proof.
  induction task_lists as [|tl tls IH]; intros env; [done|].
  cbn [section_outcomes].
  destruct (outcome (read_section oracle tl env)) as [e|[name ps]].
  - specialize (IH (final_env (read_section oracle tl env))).
    destruct (section_outcomes oracle tls _). cbn in *. by rewrite IH.
  - destruct (entry_outcomes oracle name ps _) as [eos env1].
    specialize (IH env1).
    destruct (section_outcomes oracle tls _). cbn in *. by rewrite IH.
Qed.

Lemma filed_nil acc : filed [] acc = acc.
Proof. destruct acc as [s u]. unfold filed. cbn. by rewrite !app_nil_r. Qed.

Lemma filed_app rs1 rs2 acc : filed rs2 (filed rs1 acc) = filed (rs1 ++ rs2) acc.
Proof. unfold filed. cbn. by rewrite !filter_app, !app_assoc. Qed.

Lemma append_problem_filed acc r : append_problem acc r = filed [r] acc.
Proof.
  unfold append_problem, filed. rewrite !filter_cons, !filter_nil.
  destruct (solved r) eqn:E.
  - rewrite decide_True, decide_False by naive_solver. by rewrite app_nil_r.
  - rewrite decide_False, decide_True by naive_solver. by rewrite app_nil_r.
Qed.

Lemma keep_entries_filed eos : ∀ acc,
  fold_left keep_entry eos acc = filed (entries_read eos) acc.
Proof.
  induction eos as [|[e|r] eos IH]; intros acc; cbn [fold_left keep_entry].
  - by rewrite filed_nil.
  - apply IH.
  - rewrite IH, append_problem_filed, filed_app. done.
Qed.

Lemma keep_sections_filed os : ∀ acc,
  fold_left keep_section os acc = filed (records_read os) acc.
Proof.
  induction os as [|[e|eos] os IH]; intros acc; cbn [fold_left keep_section].
  - by rewrite filed_nil.
  - apply IH.
  - rewrite IH, keep_entries_filed, filed_app. done.
Qed.

Lemma scrape_problem_data_run driver wait env :
  let lists := extract_lists oracle driver wait env in
  final_env (scrape_problem_data oracle driver wait env) = final_env lists
  ∧ trace_of (scrape_problem_data oracle driver wait env) = trace_of lists
  ∧ outcome (scrape_problem_data oracle driver wait env)
    = inr match outcome lists with
          | inl e => inl ("Scraping error: " +:+ exc_str e)
          | inr (solved_problems, unsolved_problems) =>
              if is_empty solved_problems && is_empty unsolved_problems
              then inl "No problems found on the page"
              else inr (Aggregator.problems_data solved_problems unsolved_problems)
          end.
Proof.
  intros lists. subst lists. unfold scrape_problem_data.
  destruct (outcome (extract_lists oracle driver wait env)) as [e|[s u]] eqn:E.
  - rewrite (try_except_inl _ _ _ _ (eq_trans (f_equal outcome (bind_inl _ _ _ _ E)) eq_refl)).
    rewrite (bind_inl _ _ _ _ E). cbn. by rewrite app_nil_r.
  - set (k := λ '(solved_problems, unsolved_problems),
             if is_empty solved_problems && is_empty unsolved_problems
             then ret (Env:=Env) (inl "No problems found on the page")
             else ret (inr (Aggregator.problems_data solved_problems unsolved_problems))).
    assert (∃ v, outcome (k (s, u) (final_env (extract_lists oracle driver wait env)))
                 = inr v
               ∧ v = (if is_empty s && is_empty u
                      then inl "No problems found on the page"
                      else inr (Aggregator.problems_data s u))
               ∧ trace_of (k (s, u) (final_env (extract_lists oracle driver wait env))) = []
               ∧ final_env (k (s, u) (final_env (extract_lists oracle driver wait env)))
                 = final_env (extract_lists oracle driver wait env))
      as (v & Hv & -> & Ht & He)
      by (cbn; destruct (is_empty s && is_empty u); eauto).
    assert (outcome ((x ← extract_lists oracle driver wait; k x) env)
            = inr (if is_empty s && is_empty u
                   then inl "No problems found on the page"
                   else inr (Aggregator.problems_data s u))) as E'
      by (by rewrite (bind_inr _ _ _ _ E)).
    rewrite (try_except_inr _ _ _ _ E'), (bind_inr _ _ _ _ E).
    cbn [final_env trace_of outcome fst snd]. rewrite Hv, Ht, He, app_nil_r. done.
Qed.

(** A successful extraction holds at least one record. *)
Lemma scrape_problem_data_returns driver wait :
  returns (λ r, ∀ pd, r = inr pd → 1 ≤ total_problems pd)
    (scrape_problem_data oracle driver wait).
Proof.
  intros env r Hr pd ->.
  destruct (scrape_problem_data_run driver wait env) as (_ & _ & Ho).
  rewrite Ho in Hr. injection Hr as Hr.
  destruct (outcome (extract_lists oracle driver wait env)) as [e|[s u]]; [done|].
  destruct s, u; cbn in Hr; try done; injection Hr as <-; cbn; lia.
Qed.

(** *** The scrape request *)

Lemma emits_attempt {A} P (m : M Env A) : emits P m → emits P (attempt m).
Proof.
  intros Hm env. specialize (Hm env). unfold attempt.
  by destruct (m env) as [[env1 t1] r].
Qed.

Lemma emits_bind_returns {A B} P (Q : A → Prop) (m : M Env A) (k : A → M Env B) :
  emits P m → returns Q m → (∀ a, Q a → emits P (k a)) → emits P (x ← m; k x).
Proof.
  intros Hm HQ Hk env. specialize (Hm env).
  destruct (outcome (m env)) as [e|a] eqn:E.
  - by rewrite (bind_inl _ _ _ _ E).
  - rewrite (bind_inr _ _ _ _ E). cbn. apply Forall_app.
    split; [done|]. apply Hk. by apply (HQ env).
Qed.

Ltac emits_step :=
  first
    [ apply emits_ret
    | apply emits_raise
    | apply emits_print
    | apply emits_call
    | apply emits_bind
    | apply emits_try_except
    | apply emits_try_finally
    | apply emits_attempt
    | apply emits_for_each
    | progress intros
    | match goal with
      | |- emits _ (match ?x with _ => _ end) => destruct x
      end ].

Ltac emits_tac := repeat emits_step; try done.

(** Only [save_snapshot] writes files. *)
Lemma setup_driver_no_write :
  emits (λ ev, Trace.is_fs_write ev = false) (setup_driver oracle).
Proof. unfold setup_driver. emits_tac. Qed.

Lemma login_no_write driver wait username password :
  emits (λ ev, Trace.is_fs_write ev = false)
    (login_to_cses oracle driver wait username password).
Proof. unfold login_to_cses, login_steps. emits_tac. Qed.

Lemma extraction_no_write driver wait :
  emits (λ ev, Trace.is_fs_write ev = false) (scrape_problem_data oracle driver wait).
Proof.
  unfold scrape_problem_data, extract_lists, section_iteration, read_section,
    problem_iteration, read_problem.
  emits_tac.
Qed.

Lemma fs_write_file ev : Trace.is_fs_write ev = false → Trace.is_file_write ev = false.
Proof. destruct ev as [T c r|line]; [|done]. by destruct c. Qed.

(** The steps after the session is set up neither open nor quit a session. *)
Lemma scrape_steps_session driver user_number d :
  emits (λ ev, Trace.is_quit d ev = false ∧ Trace.is_session_open ev = None)
    (try_except (scrape_steps oracle environ driver user_number) server_error).
Proof.
  unfold scrape_steps, save_snapshot, scrape_problem_data, extract_lists,
    section_iteration, read_section, problem_iteration, read_problem,
    login_to_cses, login_steps, ensure_user_directory, server_error.
  emits_tac.
Qed.

Lemma attempt_run {A} (m : M Env A) env :
  attempt m env = (final_env (m env), trace_of (m env), inr (outcome (m env))).
Proof. unfold attempt. by destruct (m env) as [[env1 t1] r]. Qed.

Lemma guarded_run (m : M Env Response) env :
  final_env (try_except m server_error env) = final_env (m env)
  ∧ trace_of (try_except m server_error env) = trace_of (m env)
  ∧ outcome (try_except m server_error env)
    = inr match outcome (m env) with
          | inl e => mkResp (ErrorBody (exc_str e)) 500
          | inr response => response
          end.
Proof.
  destruct (outcome (m env)) as [e|a] eqn:E.
  - rewrite (try_except_inl _ _ _ _ E). cbn. by rewrite app_nil_r.
  - rewrite (try_except_inr _ _ _ _ E). by rewrite E.
Qed.

(** The request when the session could not be set up: the handler answers
    and the [finally] block finds no session to quit. *)
Lemma scrape_not_started user_number env e :
  outcome (setup_driver oracle env) = inl e →
  scrape oracle environ user_number env
  = (final_env (setup_driver oracle env), trace_of (setup_driver oracle env),
     inr (mkResp (ErrorBody (exc_str e)) 500)).
Proof.
  intros E. unfold scrape.
  assert (outcome (attempt (setup_driver oracle) env) = inr (inl e)) as E'
    by (by rewrite attempt_run, <- E).
  rewrite (bind_inr _ _ _ _ E'), attempt_run. cbn. by rewrite app_nil_r.
Qed.

(** The request once the session is set up: the guarded steps, then
    [driver.quit()], whose exception, if any, replaces the response. *)
Lemma scrape_started user_number env driver :
  outcome (setup_driver oracle env) = inr driver →
  let steps := try_except (scrape_steps oracle environ driver user_number) server_error
                 (final_env (setup_driver oracle env)) in
  let quit := oracle () (Quit driver) (final_env steps) in
  scrape oracle environ user_number env
  = (quit.1,
     trace_of (setup_driver oracle env) ++ trace_of steps ++ [EvCall (Quit driver) quit.2],
     match quit.2 with
     | inl e => inl e
     | inr _ => outcome steps
     end).
Proof.
  intros E steps quit. unfold scrape.
  assert (outcome (attempt (setup_driver oracle) env) = inr (inr driver)) as E'
    by (by rewrite attempt_run, <- E).
  rewrite (bind_inr _ _ _ _ E'), attempt_run.
  cbn [final_env trace_of outcome fst snd].
  rewrite try_finally_run, call_run. done.
Qed.

Lemma setup_driver_sessions env driver :
  outcome (setup_driver oracle env) = inr driver →
  Trace.sessions_opened (trace_of (setup_driver oracle env)) = [driver]
  ∧ filter (λ ev, Trace.is_quit driver ev) (trace_of (setup_driver oracle env)) = [].
Proof.
  unfold setup_driver, mbind, M_bind, bind, call.
  repeat (run_call; try discriminate). by intros [= ->].
Qed.

Lemma sessions_opened_none t :
  Forall (λ ev, Trace.is_session_open ev = None) t → Trace.sessions_opened t = [].
Proof.
  induction 1 as [|ev t Hev _ IH]; [done|].
  unfold Trace.sessions_opened in *. cbn. by rewrite Hev.
Qed.

Lemma sessions_opened_app t1 t2 :
  Trace.sessions_opened (t1 ++ t2)
  = Trace.sessions_opened t1 ++ Trace.sessions_opened t2.
Proof. apply omap_app. Qed.

Lemma quits_none d t :
  Forall (λ ev, Trace.is_quit d ev = false) t →
  filter (λ ev, Trace.is_quit d ev) t = [].
Proof.
  induction 1 as [|ev t Hev _ IH]; [done|].
  rewrite filter_cons, decide_False; [done|]. rewrite Hev. intros [].
Qed.

(** X20: whenever [setup_driver] has returned the session, whatever happens
    afterwards (success, missing credentials, login or extraction failure,
    an exception caught by the handler), the request ends with the call
    [driver.quit()] on that session: it is the last event of the request,
    the only quit, and the session is the only one opened. *)
Theorem session_always_quit user_number env driver :
  outcome (setup_driver oracle env) = inr driver →
  let r := scrape oracle environ user_number env in
  (∃ answer, last (trace_of r) = Some (EvCall (Quit driver) answer))
  ∧ Trace.sessions_opened (trace_of r) = [driver]
  ∧ length (filter (λ ev, Trace.is_quit driver ev) (trace_of r)) = 1.
Proof.
  intros E r. subst r. rewrite (scrape_started _ _ _ E).
  cbn [trace_of fst snd].
  destruct (setup_driver_sessions _ _ E) as [Hs Hq].
  pose proof (scrape_steps_session driver user_number driver
                (final_env (setup_driver oracle env))) as Hsteps.
  apply Forall_and in Hsteps as [Hsq Hso].
  split; [|split].
  - eexists. by rewrite app_assoc, last_snoc.
  - rewrite !sessions_opened_app, Hs, (sessions_opened_none _ Hso). done.
  - rewrite !filter_app, Hq, (quits_none _ _ Hsq).
    rewrite filter_cons, decide_True; [done|].
    cbn. by rewrite bool_decide_eq_true_2.
Qed.

(** Without both credentials the steps are the 404 answer and nothing else. *)
Lemma scrape_steps_missing driver user_number :
  PyStr.truthy (environ ("CF_USERNAME_" +:+ pretty user_number)) = None
  ∨ PyStr.truthy (environ ("CF_PASSWORD_" +:+ pretty user_number)) = None →
  scrape_steps oracle environ driver user_number
  = ret (mkResp (ErrorBody ("User " +:+ pretty user_number +:+ " credentials not found"))
           404).
Proof.
  unfold scrape_steps. intros [-> | ->]; [done|].
  by destruct (PyStr.truthy (environ ("CF_USERNAME_" +:+ pretty user_number))).
Qed.

(** C2 (as amended): when the user index has no username or no password
    configured and the browser session starts, the request consists of the
    session set-up followed at once by [driver.quit()]: no login, no
    extraction, no directory and no file; it answers the 404 configuration
    error unless the teardown itself raises. *)
Theorem missing_credentials user_number env driver :
  PyStr.truthy (environ ("CF_USERNAME_" +:+ pretty user_number)) = None
  ∨ PyStr.truthy (environ ("CF_PASSWORD_" +:+ pretty user_number)) = None →
  outcome (setup_driver oracle env) = inr driver →
  let r := scrape oracle environ user_number env in
  let quit := oracle () (Quit driver) (final_env (setup_driver oracle env)) in
  trace_of r = trace_of (setup_driver oracle env) ++ [EvCall (Quit driver) quit.2]
  ∧ Forall (λ ev, Trace.is_fs_write ev = false) (trace_of r)
  ∧ outcome r
    = match quit.2 with
      | inl e => inl e
      | inr _ =>
          inr (mkResp
                 (ErrorBody ("User " +:+ pretty user_number +:+ " credentials not found"))
                 404)
      end.
Proof.
  intros Hmissing E r quit. subst r quit.
  rewrite (scrape_started _ _ _ E), (scrape_steps_missing _ _ Hmissing).
  cbn [trace_of outcome final_env fst snd try_except ret app].
  split; [done|]. split; [|done].
  apply Forall_app. split; [apply setup_driver_no_write|by constructor].
Qed.

Lemma ensure_user_directory_no_file username :
  emits (λ ev, Trace.is_file_write ev = false) (ensure_user_directory oracle username).
Proof. unfold ensure_user_directory. emits_tac. Qed.

(** The steps of a request whose extraction ends with two empty lists. *)
Lemma scrape_steps_empty driver user_number env username password user_dir message :
  PyStr.truthy (environ ("CF_USERNAME_" +:+ pretty user_number)) = Some username →
  PyStr.truthy (environ ("CF_PASSWORD_" +:+ pretty user_number)) = Some password →
  let wait := mkWait driver 20 in
  let made := ensure_user_directory oracle username env in
  outcome made = inr user_dir →
  let logged := login_to_cses oracle driver wait username password (final_env made) in
  outcome logged = inr (true, message) →
  let lists := extract_lists oracle driver wait (final_env logged) in
  outcome lists = inr ([], []) →
  scrape_steps oracle environ driver user_number env
  = (final_env lists, trace_of made ++ trace_of logged ++ trace_of lists,
     inr (mkResp (ErrorBody "No problems found on the page") 500)).
Proof.
  intros Hu Hp wait made Hmade logged Hlogged lists Hlists.
  unfold scrape_steps. rewrite Hu, Hp.
  rewrite (bind_inr _ _ _ _ Hmade). fold made.
  rewrite (bind_inr _ _ _ _ Hlogged). fold wait logged.
  cbn [negb].
  destruct (scrape_problem_data_run driver wait (final_env logged)) as (He & Ht & Ho).
  fold lists in He, Ht, Ho. rewrite Hlists in Ho. cbn in Ho.
  rewrite (bind_inr _ _ _ _ Ho), He, Ht. cbn. by rewrite app_nil_r.
Qed.

(** C7: when the extraction ends with both lists empty, the extractor
    answers the failure "No problems found on the page" instead of a
    success, and a success always holds at least one record; a request
    whose extraction ends that way writes no file at all and answers that
    message with status 500, unless the teardown itself raises. *)
Theorem empty_extraction_fails :
  (∀ driver wait env,
      (outcome (extract_lists oracle driver wait env) = inr ([], []) →
       outcome (scrape_problem_data oracle driver wait env)
       = inr (inl "No problems found on the page"))
      ∧ (∀ pd, outcome (scrape_problem_data oracle driver wait env) = inr (inr pd) →
               1 ≤ length (pd_solved pd ++ pd_unsolved pd)))
  ∧ (∀ user_number env driver username password user_dir message,
      outcome (setup_driver oracle env) = inr driver →
      PyStr.truthy (environ ("CF_USERNAME_" +:+ pretty user_number)) = Some username →
      PyStr.truthy (environ ("CF_PASSWORD_" +:+ pretty user_number)) = Some password →
      let wait := mkWait driver 20 in
      let made := ensure_user_directory oracle username
                    (final_env (setup_driver oracle env)) in
      outcome made = inr user_dir →
      let logged := login_to_cses oracle driver wait username password (final_env made) in
      outcome logged = inr (true, message) →
      let lists := extract_lists oracle driver wait (final_env logged) in
      outcome lists = inr ([], []) →
      let r := scrape oracle environ user_number env in
      Forall (λ ev, Trace.is_file_write ev = false) (trace_of r)
      ∧ outcome r
        = match (oracle () (Quit driver) (final_env lists)).2 with
          | inl e => inl e
          | inr _ => inr (mkResp (ErrorBody "No problems found on the page") 500)
          end).
Proof.
  split.
  - intros driver wait env.
    destruct (scrape_problem_data_run driver wait env) as (_ & _ & Ho).
    split.
    + intros Hlists. by rewrite Ho, Hlists.
    + intros pd Hpd. rewrite Ho in Hpd. injection Hpd as Hpd.
      destruct (outcome (extract_lists oracle driver wait env)) as [e|[s u]]; [done|].
      destruct s, u; cbn in Hpd; try done; injection Hpd as <-; cbn; lia.
  - intros user_number env driver username password user_dir message
      E Hu Hp wait made Hmade logged Hlogged lists Hlists r. subst r.
    pose proof (scrape_steps_empty driver user_number _ _ _ _ _ Hu Hp Hmade Hlogged Hlists)
      as Hsteps.
    fold wait made logged lists in Hsteps.
    destruct (guarded_run (scrape_steps oracle environ driver user_number)
                (final_env (setup_driver oracle env))) as (He & Ht & Ho).
    rewrite Hsteps in He, Ht, Ho. cbn [final_env trace_of outcome fst snd] in He, Ht, Ho.
    rewrite (scrape_started _ _ _ E), He, Ht, Ho.
    cbn [trace_of outcome fst snd].
    split; [|done].
    destruct (scrape_problem_data_run driver wait (final_env logged)) as (_ & Hspd & _).
    fold lists in Hspd.
    repeat (apply Forall_app; split).
    + eapply Forall_impl; [apply setup_driver_no_write|apply fs_write_file].
    + apply ensure_user_directory_no_file.
    + eapply Forall_impl; [apply login_no_write|apply fs_write_file].
    + rewrite <- Hspd.
      eapply Forall_impl; [apply extraction_no_write|apply fs_write_file].
    + by constructor.
Qed.

Ltac emits_tac' := emits_tac; try (by simplify_eq/=).

(** Every stats dictionary handed to [json.dump] counts at least one
    problem: the snapshot is only saved after an extraction that found one. *)
Lemma scrape_stats_counted user_number :
  emits (λ ev, ∀ st, Trace.stats_written ev = Some st → 1 ≤ total_count st)
    (scrape oracle environ user_number).
Proof.
  unfold scrape. apply emits_bind; [unfold setup_driver; emits_tac'|].
  intros [e|driver]; [unfold server_error; emits_tac'|].
  apply emits_try_finally; [|emits_tac'].
  apply emits_try_except; [|unfold server_error; emits_tac'].
  unfold scrape_steps.
  destruct (PyStr.truthy _) as [username|]; [|emits_tac'].
  destruct (PyStr.truthy _) as [password|]; [|emits_tac'].
  apply emits_bind; [unfold ensure_user_directory; emits_tac'|]. intros user_dir.
  apply emits_bind; [unfold login_to_cses, login_steps; emits_tac'|].
  intros [[] message]; cbn [negb]; [|emits_tac'].
  eapply emits_bind_returns; [|apply scrape_problem_data_returns|].
  - unfold scrape_problem_data, extract_lists, section_iteration, read_section,
      problem_iteration, read_problem.
    emits_tac'.
  - intros [failure|pd] Hpd; [emits_tac'|].
    specialize (Hpd pd eq_refl). unfold save_snapshot. emits_tac'.
Qed.

End PipelineFacts.

(** ** Facts about the stable descending sort *)

Section SortFacts.

Context {A : Type} (key : A → nat).

Import PySort.

Lemma insert_desc_perm x l : insert_desc key x l ≡ₚ x :: l.
Proof.
  induction l as [|y l IH]; cbn [insert_desc]; [done|].
  destruct (Nat.ltb (key x) (key y)); [|done].
  rewrite IH. apply Permutation_swap.
Qed.

Lemma sort_desc_perm l : sort_desc key l ≡ₚ l.
Proof.
  induction l as [|x l IH]; [done|].
  unfold sort_desc in *. cbn [foldr]. by rewrite insert_desc_perm, IH.
Qed.

Lemma insert_desc_sorted x l :
  StronglySorted (λ a b, key b ≤ key a) l →
  StronglySorted (λ a b, key b ≤ key a) (insert_desc key x l).
Proof.
  induction 1 as [|y l Hl IH Hy]; cbn [insert_desc].
  - repeat constructor.
  - destruct (Nat.ltb_spec (key x) (key y)) as [Hlt|Hge].
    + constructor; [done|].
      rewrite insert_desc_perm. constructor; [lia|done].
    + constructor; [by constructor|].
      constructor; [done|].
      eapply Forall_impl; [exact Hy|]. cbn. intros; lia.
Qed.

Lemma sort_desc_sorted l : StronglySorted (λ a b, key b ≤ key a) (sort_desc key l).
Proof.
  induction l as [|x l IH]; [constructor|].
  unfold sort_desc in *. cbn [foldr]. by apply insert_desc_sorted.
Qed.

(** An inserted element only passes elements of a strictly larger key, so
    it never overtakes an element with its own key. *)
Lemma insert_desc_stable k x l :
  filter (λ a, key a = k) (insert_desc key x l) = filter (λ a, key a = k) (x :: l).
Proof.
  induction l as [|y l IH]; cbn [insert_desc]; [done|].
  destruct (Nat.ltb_spec (key x) (key y)) as [Hlt|Hge]; [|done].
  rewrite (filter_cons _ y), IH, !filter_cons.
  destruct (decide (key y = k)), (decide (key x = k)); try done; lia.
Qed.

Lemma sort_desc_stable k l :
  filter (λ a, key a = k) (sort_desc key l) = filter (λ a, key a = k) l.
Proof.
  induction l as [|x l IH]; [done|].
  unfold sort_desc in *. cbn [foldr].
  by rewrite insert_desc_stable, !filter_cons, IH.
Qed.

End SortFacts.

(** ** Facts about the leaderboard reader *)

Section LeaderboardFacts.

Context {pyfloat : Type}.
Context (int_truediv : Z → Z → Exception + pyfloat) (float_mul : pyfloat → Z → pyfloat).


Lemma with_progress_inr st u :
  with_progress int_truediv float_mul st = inr u →
  stats u = st
  ∧ ∃ q, truediv int_truediv (Z.of_nat (solved_count st)) (Z.of_nat (total_count st)) = inr q
         ∧ progress u = float_mul q 100.
Proof.
  unfold with_progress.
  destruct (truediv _ _ _) as [e|q]; [done|]. intros [= <-]. eauto.
Qed.

Lemma with_progress_zero st :
  total_count st = 0 → with_progress int_truediv float_mul st = inl ZeroDivisionError.
Proof.
  intros Hz. unfold with_progress, truediv.
  rewrite Hz. done.
Qed.

Lemma truediv_nonzero (a b : Z) : b ≠ 0%Z → truediv int_truediv a b = int_truediv a b.
Proof. intros Hb. unfold truediv. by rewrite decide_False. Qed.

Lemma stored_stats_cons d entries :
  stored_stats (d :: entries)
  = match (if is_dir d
           then match stats_json d with Some (inr st) => Some st | _ => None end
           else None) with
    | Some st => st :: stored_stats entries
    | None => stored_stats entries
    end.
Proof. done. Qed.

(** On readable entries the loop appends one dictionary per stats file, in
    discovery order, each with its progress. *)
Lemma read_users_readable entries : ∀ users_data,
  Forall (λ d, readable int_truediv float_mul d = true) entries →
  ∃ new,
    read_users int_truediv float_mul entries users_data = inr (users_data ++ new)
    ∧ stats <$> new = stored_stats entries
    ∧ Forall (λ u, with_progress int_truediv float_mul (stats u) = inr u) new.
Proof.
  induction entries as [|d entries IH]; intros users_data Hall.
  - exists []. by rewrite app_nil_r.
  - apply Forall_cons in Hall as [Hd Hall].
    unfold readable in Hd. rewrite stored_stats_cons. cbn [read_users].
    destruct (is_dir d); cbn in Hd; [|by apply IH].
    destruct (stats_json d) as [[e|st]|]; [done| |by apply IH].
    destruct (with_progress int_truediv float_mul st) as [e|u] eqn:Hu; [done|].
    destruct (IH (users_data ++ [u]) Hall) as (new & Hr & Hs & Hp).
    exists (u :: new). rewrite Hr, <- app_assoc. split; [done|].
    destruct (with_progress_inr _ _ Hu) as [Hst _].
    split.
    + cbn. rewrite Hst. f_equal. exact Hs.
    + constructor; [by rewrite Hst|done].
Qed.

(** A stats file without problems stops the loop, at the latest when it is
    read. *)
Lemma read_users_zero entries st : ∀ users_data,
  st ∈ stored_stats entries → total_count st = 0 →
  ∃ e, read_users int_truediv float_mul entries users_data = inl e.
Proof.
  induction entries as [|d entries IH]; intros users_data Hin Hz.
  - by apply elem_of_nil in Hin.
  - rewrite stored_stats_cons in Hin. cbn [read_users].
    destruct (is_dir d); [|by apply IH].
    destruct (stats_json d) as [[e|st']|]; [eauto| |by apply IH].
    apply elem_of_cons in Hin as [<-|Hin].
    + rewrite (with_progress_zero _ Hz). eauto.
    + destruct (with_progress int_truediv float_mul st') as [e|u]; [eauto|]. by apply IH.
Qed.

(** C5: when every stored stats file can be read and its progress
    computed, the leaderboard hands over one dictionary per file, whose
    [progress] is [solved_count / total_count * 100], sorted by descending
    [solved_count] with equal counts kept in discovery order: the result is
    a permutation of the dictionaries in discovery order, it is descending,
    and for every count the entries with that count come in discovery
    order. With counts 5, 9, 9 the two 9s come first, in their order, then
    the 5. *)
Theorem leaderboard_ranking entries :
  Forall (λ d, readable int_truediv float_mul d = true) entries →
  (∃ users_data users,
      leaderboard int_truediv float_mul (inr entries) = inr users
      ∧ stats <$> users_data = stored_stats entries
      ∧ Forall (λ u, ∃ q,
            truediv int_truediv (Z.of_nat (solved_count (stats u)))
                    (Z.of_nat (total_count (stats u))) = inr q
            ∧ progress u = float_mul q 100) users_data
      ∧ users ≡ₚ users_data
      ∧ StronglySorted (λ a b, solved_count (stats b) ≤ solved_count (stats a)) users
      ∧ ∀ k, filter (λ u, solved_count (stats u) = k) users
             = filter (λ u, solved_count (stats u) = k) users_data)
  ∧ (∀ a b c,
      entries = [mkEntry true (Some (inr a)); mkEntry true (Some (inr b));
                 mkEntry true (Some (inr c))] →
      solved_count a = 5 → solved_count b = 9 → solved_count c = 9 →
      ∃ users, leaderboard int_truediv float_mul (inr entries) = inr users ∧ stats <$> users = [b; c; a]).
Proof.
  intros Hall.
  destruct (read_users_readable entries [] Hall) as (new & Hr & Hs & Hp).
  cbn [app] in Hr. split.
  - exists new, (PySort.sort_desc (λ x, solved_count (stats x)) new).
    unfold leaderboard. rewrite Hr.
    split; [done|]. split; [done|]. split.
    { eapply Forall_impl; [exact Hp|]. cbn. intros u Hu.
      by destruct (with_progress_inr _ _ Hu) as [_ ?]. }
    split; [apply sort_desc_perm|].
    split; [apply sort_desc_sorted|]. intros k. apply sort_desc_stable.
  - intros a b c -> Ha Hb Hc.
    unfold leaderboard. rewrite Hr. eexists. split; [done|].
    unfold stored_stats in Hs. cbn in Hs.
    destruct new as [|ua [|ub [|uc [|]]]]; try done.
    injection Hs as <- <- <-.
    unfold PySort.sort_desc. cbn [foldr PySort.insert_desc].
    rewrite Hb, Hc. cbn. rewrite Ha, Hb. cbn. by rewrite Hc.
Qed.

End LeaderboardFacts.

(** ** The division of the leaderboard and the stats the pipeline writes *)

(** C10: line 330 divides by [total_count] without a guard. Every stats
    dictionary a scrape request writes has [total_count >= 1], and for
    such a dictionary the division is the plain float division, never the
    zero-divisor error; a stats file with [total_count = 0] makes the
    division raise [ZeroDivisionError] and the whole leaderboard answer
    an error with status 500. *)
Theorem division_needs_pipeline_stats :
  (∀ (Env : Type) (oracle : ∀ T, Call T → Env → Env * (Exception + T))
     (environ : string → option string) (user_number : nat) (env : Env),
      Forall (λ ev, ∀ st, Trace.stats_written ev = Some st → 1 ≤ total_count st)
        (trace_of (scrape oracle environ user_number env)))
  ∧ (∀ (pyfloat : Type) (int_truediv : Z → Z → Exception + pyfloat)
       (float_mul : pyfloat → Z → pyfloat) (st : UserStats),
      (1 ≤ total_count st →
       truediv int_truediv (Z.of_nat (solved_count st)) (Z.of_nat (total_count st))
       = int_truediv (Z.of_nat (solved_count st)) (Z.of_nat (total_count st)))
      ∧ (total_count st = 0 →
         with_progress int_truediv float_mul st = inl ZeroDivisionError))
  ∧ (∀ (pyfloat : Type) (int_truediv : Z → Z → Exception + pyfloat)
       (float_mul : pyfloat → Z → pyfloat) (entries : list DirEntry) (st : UserStats),
      st ∈ stored_stats entries → total_count st = 0 →
      ∃ message,
        leaderboard int_truediv float_mul (inr entries)
        = inl (mkResp (ErrorBody message) 500)).
Proof.
  split; [|split].
  - intros Env oracle environ user_number env. apply scrape_stats_counted.
  - intros pyfloat int_truediv float_mul st. split.
    + intros Hst. apply truediv_nonzero. lia.
    + apply with_progress_zero.
  - intros pyfloat int_truediv float_mul entries st Hin Hz.
    destruct (read_users_zero int_truediv float_mul entries st [] Hin Hz) as [e He].
    unfold leaderboard. rewrite He. eauto.
Qed.

(** ** Worked instances *)

(** The page of [Sample.graph_site]: the section without heading and the
    entry without anchor are left out, the other two entries are filed. *)
Example graph_site_extraction :
  outcome (extract_lists Sample.graph_site 1 (mkWait 1 20) 0)
  = inr ([mkProblem "Counting Rooms" (Some "https://cses.fi/problemset/task/1192")
            "Graph Algorithms" true],
         [mkProblem "Labyrinth" (Some "https://cses.fi/problemset/task/1192")
            "Graph Algorithms" false]).
Proof. vm_compute. reflexivity. Qed.

Example graph_site_scrape :
  outcome (scrape Sample.graph_site Sample.one_user 1 0)
  = inr (mkResp
           (SuccessBody "Data saved for user alice" 1 2
              "scraped_data/alice/solved_20240101_120000.json"
              "scraped_data/alice/unsolved_20240101_120000.json"
              "scraped_data/alice/stats.json")
           200).
Proof. vm_compute. reflexivity. Qed.

Example stalled_site_login :
  outcome (login_to_cses Sample.stalled_site 1 (mkWait 1 20) "alice" "secret" tt)
  = inr (false, "Login error: timed out").
Proof. vm_compute. reflexivity. Qed.

Example refusing_site_login :
  outcome (login_to_cses Sample.refusing_site 1 (mkWait 1 20) "alice" "secret" tt)
  = inr (false, "Login failed. Please check credentials.").
Proof. vm_compute. reflexivity. Qed.

(** When [setup_driver] itself raises after the browser has started, the
    request has no session to quit: [driver] is still [None]. *)
Example crashing_site_scrape :
  scrape Sample.crashing_site Sample.one_user 1 tt
  = (tt,
     [EvCall (ChromeNew chrome_options) (inr 1);
      EvCall (ImplicitlyWait 1 10) (inl (mkExc "WebDriverException" "chrome not reachable"))],
     inr (mkResp (ErrorBody "chrome not reachable") 500)).
Proof. vm_compute. reflexivity. Qed.

Example split_classes :
  PyStr.split "  task-score icon  full " = ["task-score"; "icon"; "full"].
Proof. vm_compute. reflexivity. Qed.

(** C2, the claim as worded fails for user 2 of [Sample.one_user], who has
    no credentials: the request opens session 1 before it looks them up. *)
Lemma missing_credentials_counterexample :
  PyStr.truthy (Sample.one_user ("CF_USERNAME_" +:+ pretty 2)) = None
  ∧ Trace.sessions_opened (trace_of (scrape Sample.empty_site Sample.one_user 2 tt)) = [1]
  ∧ trace_of (scrape Sample.empty_site Sample.one_user 2 tt)
    = [EvCall (ChromeNew chrome_options) (inr 1);
       EvCall (ImplicitlyWait 1 10) (inr tt);
       EvCall (Quit 1) (inr tt)].
Proof. vm_compute. auto. Qed.

Lemma missing_credentials_witness :
  trace_of (scrape Sample.empty_site Sample.one_user 2 tt)
  = [EvCall (ChromeNew chrome_options) (inr 1);
     EvCall (ImplicitlyWait 1 10) (inr tt);
     EvCall (Quit 1) (inr tt)]
  ∧ Forall (λ ev, Trace.is_fs_write ev = false)
      (trace_of (scrape Sample.empty_site Sample.one_user 2 tt))
  ∧ outcome (scrape Sample.empty_site Sample.one_user 2 tt)
    = inr (mkResp (ErrorBody "User 2 credentials not found") 404).
Proof.
  apply (missing_credentials Sample.empty_site Sample.one_user 2 tt 1).
  - left. vm_compute. reflexivity.
  - reflexivity.
Defined.

Lemma empty_extraction_fails_witness :
  outcome (scrape_problem_data Sample.empty_site 1 (mkWait 1 20) tt)
  = inr (inl "No problems found on the page")
  ∧ Forall (λ ev, Trace.is_file_write ev = false)
      (trace_of (scrape Sample.empty_site Sample.one_user 1 tt))
  ∧ outcome (scrape Sample.empty_site Sample.one_user 1 tt)
    = inr (mkResp (ErrorBody "No problems found on the page") 500).
Proof.
  destruct (empty_extraction_fails Sample.empty_site Sample.one_user) as [Hempty Hrequest].
  split.
  - apply (Hempty 1 (mkWait 1 20) tt). reflexivity.
  - apply (Hrequest 1 tt 1 "alice" "secret" "scraped_data/alice" "Login successful");
      vm_compute; reflexivity.
Defined.

Lemma session_always_quit_witness :
  outcome (setup_driver Sample.graph_site 0) = inr 1
  ∧ (∃ answer,
        last (trace_of (scrape Sample.graph_site Sample.one_user 1 0))
        = Some (EvCall (Quit 1) answer))
  ∧ Trace.sessions_opened (trace_of (scrape Sample.graph_site Sample.one_user 1 0)) = [1]
  ∧ length (filter (λ ev, Trace.is_quit 1 ev)
              (trace_of (scrape Sample.graph_site Sample.one_user 1 0))) = 1.
Proof.
  split; [reflexivity|].
  apply (session_always_quit Sample.graph_site Sample.one_user 1 0 1). reflexivity.
Defined.

Lemma leaderboard_ranking_witness :
  let a := Sample.user "a" 5 10 in
  let b := Sample.user "b" 9 10 in
  let c := Sample.user "c" 9 12 in
  ∃ users,
    leaderboard Sample.q_truediv Sample.q_mul
      (inr [mkEntry true (Some (inr a)); mkEntry true (Some (inr b));
            mkEntry true (Some (inr c))])
    = inr users
    ∧ stats <$> users = [b; c; a].
Proof.
  intros a b c.
  apply (leaderboard_ranking Sample.q_truediv Sample.q_mul
           [mkEntry true (Some (inr a)); mkEntry true (Some (inr b));
            mkEntry true (Some (inr c))]);
    try reflexivity.
  repeat constructor.
Defined.

(** ** Further facts about the aggregator *)

Section AggregatorMore.
Import Aggregator.

Lemma count_in_pos s l : count_in s l ≠ 0 ↔ s ∈ section <$> l.
Proof.
  induction l as [|p l IH].
  - rewrite count_in_nil. split; [done|]. by intros ?%elem_of_nil.
  - rewrite count_in_cons, fmap_cons, elem_of_cons.
    destruct (decide (section p = s)) as [<-|Hne].
    + split; [by left|lia].
    + cbn. rewrite IH. split; [by right|]. by intros [->|?].
Qed.

Lemma count_in_perm s l1 l2 : l1 ≡ₚ l2 → count_in s l1 = count_in s l2.
Proof. intros Hp. unfold count_in. by rewrite Hp. Qed.

(** X1: the keys of [stats["sections"]] are exactly the section names of
    the records, solved or not: a key is created the first time a section
    is met and for no other reason. *)
Theorem sections_domain (s u : list ProblemRecord) (user ts now : string) :
  dom (sections (aggregate s u user ts now))
  = list_to_set (C:=gset string) (section <$> (s ++ u)).
Proof.
  apply set_eq. intros sec.
  rewrite elem_of_dom, elem_of_list_to_set, <- count_in_pos.
  unfold aggregate, build_stats. cbn [sections].
  rewrite section_stats_lookup. cbn [pd_solved pd_unsolved problems_data].
  case_decide as Hc.
  - split; [by intros [? ?]|done].
  - split; [done|eauto].
Qed.

(** X2: the order in which the records were extracted does not matter:
    permuting the solved list and the unsolved list gives the same stats. *)
Theorem aggregate_order_irrelevant (s s' u u' : list ProblemRecord) (user ts now : string) :
  s ≡ₚ s' → u ≡ₚ u' →
  aggregate s u user ts now = aggregate s' u' user ts now.
Proof.
  intros Hs Hu. unfold aggregate, build_stats, problems_data.
  cbn [total_solved total_problems].
  rewrite (Permutation_length Hs), (Permutation_length Hu). f_equal.
  apply map_eq. intros sec. rewrite !section_stats_lookup.
  cbn [pd_solved pd_unsolved].
  rewrite !count_in_app, (count_in_perm sec _ _ Hs), (count_in_perm sec _ _ Hu).
  done.
Qed.

End AggregatorMore.

Lemma aggregate_order_irrelevant_witness :
  Aggregator.aggregate [Sample.intro "A" true; mkProblem "B" None "Graphs" true]
    [Sample.intro "C" false; mkProblem "D" None "Graphs" false] "u" "t" "n"
  = Aggregator.aggregate [mkProblem "B" None "Graphs" true; Sample.intro "A" true]
      [mkProblem "D" None "Graphs" false; Sample.intro "C" false] "u" "t" "n".
Proof.
  apply aggregate_order_irrelevant; apply Permutation_swap.
Defined.

(** ** Further facts about the classification of an entry *)

Section ClassificationFacts.
Import PyStr.

Lemma string_app_nil_l (y : string) : "" +:+ y = y.
Proof. reflexivity. Qed.

Lemma string_app_cons a (x y : string) : String a x +:+ y = String a (x +:+ y).
Proof. reflexivity. Qed.

Lemma string_app_assoc (x y z : string) : (x +:+ y) +:+ z = x +:+ (y +:+ z).
Proof.
  induction x as [|a x IH]; [done|].
  by rewrite !string_app_cons, IH.
Qed.

Lemma string_app_nil_r (x : string) : x +:+ "" = x.
Proof.
  induction x as [|a x IH]; [done|].
  by rewrite string_app_cons, IH.
Qed.

(** A needle without blank cannot start at or run over a blank. *)
Lemma prefix_before_blank n a : ∀ x y,
  is_space a = true → Aux.no_blank n = true →
  String.prefix n (x +:+ String a y) = String.prefix n x.
Proof.
  induction n as [|b n IH]; intros x y Ha Hn.
  - by destruct x.
  - cbn in Hn. apply andb_prop in Hn as [Hb Hn].
    destruct x as [|c x]; rewrite ?string_app_nil_l, ?string_app_cons; cbn [String.prefix].
    + destruct (Ascii.ascii_dec b a) as [->|_]; [|done].
      by rewrite Ha in Hb.
    + destruct (Ascii.ascii_dec b c); [by apply IH|done].
Qed.

Lemma str_in_nil n : n ≠ "" → str_in n "" = false.
Proof. by destruct n. Qed.

Lemma str_in_blank n a x y :
  n ≠ "" → is_space a = true → Aux.no_blank n = true →
  str_in n (x +:+ String a y) = str_in n x || str_in n y.
Proof.
  intros Hne Ha Hn. induction x as [|c x IH].
  - rewrite string_app_nil_l. cbn [str_in].
    rewrite <- (string_app_nil_l (String a y)), (prefix_before_blank n a "" y Ha Hn).
    fold (str_in n ""). rewrite (str_in_nil n Hne).
    by destruct n.
  - rewrite string_app_cons. cbn [str_in].
    rewrite <- string_app_cons, (prefix_before_blank n a (String c x) y Ha Hn), IH.
    by rewrite orb_assoc.
Qed.

Lemma split_from_str_in n : n ≠ "" → Aux.no_blank n = true → ∀ s word,
  existsb (str_in n) (split_from s word) = str_in n (word +:+ s).
Proof.
  intros Hne Hn. induction s as [|a s IH]; intros word.
  - cbn [split_from]. rewrite string_app_nil_r.
    case_decide as Hw; cbn.
    + subst word. by rewrite str_in_nil.
    + by rewrite orb_false_r.
  - cbn [split_from]. destruct (is_space a) eqn:Ha.
    + rewrite (str_in_blank n a word s Hne Ha Hn).
      case_decide as Hw.
      * subst word. rewrite IH, str_in_nil by done. done.
      * cbn [existsb]. by rewrite IH.
    + by rewrite IH, string_app_assoc, string_app_cons, string_app_nil_l.
Qed.

(** X3: splitting the class attribute at blanks does not change the
    verdict of line 198: an entry counts as solved exactly when its class
    attribute contains the letters [full] anywhere, also inside a longer
    class name. *)
Theorem solved_iff_class_contains_full (class : string) :
  existsb (str_in "full") (split class) = str_in "full" class.
Proof. unfold split. by rewrite split_from_str_in. Qed.

End ClassificationFacts.

(** ** Further facts about the extractor *)

Section ExtractorMore.

Context {Env : Type} (oracle : ∀ T, Call T → Env → Env * (Exception + T)).

#[local] Existing Instance M_ret.
#[local] Existing Instance M_bind.

Ltac run_call :=
  match goal with
  | |- context [oracle ?T ?c ?env] =>
      let E := fresh "E" in
      destruct (oracle T c env) as [? [?|?]] eqn:E; cbn
  end.





Lemma extract_lists_filed driver wait env acc :
  outcome (extract_lists oracle driver wait env) = inr acc →
  ∃ rs, acc = (filter (λ r, solved r) rs, filter (λ r, ¬ solved r) rs).
Proof.
  unfold extract_lists, mbind, M_bind, bind, call.
  repeat (run_call; try discriminate).
  match goal with |- context [for_each ?tls _ _ ?env0] =>
    destruct (outer_loop_run oracle tls ([], []) env0) as [_ Ho];
    destruct (for_each tls (section_iteration oracle) ([], []) env0) as [[env1 t1] r1]
  end.
  cbn in *. subst r1. intros [= <-]. rewrite keep_sections_filed. by eexists.
Qed.

(** X5: a successful extraction is a partition: every record of the
    solved list has its [solved] flag set, no record of the unsolved list
    has, and the two counts returned with the lists are the length of the
    solved list and the length of both lists together. *)
Theorem extraction_partition driver wait env pd :
  outcome (scrape_problem_data oracle driver wait env) = inr (inr pd) →
  Forall (λ r, solved r = true) (pd_solved pd)
  ∧ Forall (λ r, solved r = false) (pd_unsolved pd)
  ∧ total_solved pd = length (pd_solved pd)
  ∧ total_problems pd = length (pd_solved pd) + length (pd_unsolved pd).
Proof.
  intros Hpd.
  destruct (scrape_problem_data_run oracle driver wait env) as (_ & _ & Ho).
  rewrite Ho in Hpd. injection Hpd as Hpd.
  destruct (outcome (extract_lists oracle driver wait env)) as [e|[s u]] eqn:E; [done|].
  destruct (extract_lists_filed _ _ _ _ E) as (rs & [= -> ->]).
  destruct (is_empty _ && is_empty _); [done|]. injection Hpd as <-.
  cbn. repeat split.
  - apply Forall_forall. intros r [Hr _]%list_elem_of_filter. by apply Is_true_true.
  - apply Forall_forall. intros r [Hr _]%list_elem_of_filter.
    by apply negb_prop_intro, Is_true_true, negb_true_iff in Hr.
Qed.


End ExtractorMore.


Lemma extraction_partition_witness :
  let pd := Aggregator.problems_data
              [mkProblem "Counting Rooms" (Some "https://cses.fi/problemset/task/1192")
                 "Graph Algorithms" true]
              [mkProblem "Labyrinth" (Some "https://cses.fi/problemset/task/1192")
                 "Graph Algorithms" false] in
  Forall (λ r, solved r = true) (pd_solved pd)
  ∧ Forall (λ r, solved r = false) (pd_unsolved pd)
  ∧ total_solved pd = length (pd_solved pd)
  ∧ total_problems pd = length (pd_solved pd) + length (pd_unsolved pd).
Proof.
  intros pd.
  apply (extraction_partition Sample.graph_site 1 (mkWait 1 20) 0 pd).
  vm_compute. reflexivity.
Defined.


(** ** Further facts about the scrape request *)

Section PipelineMore.

Context {Env : Type} (oracle : ∀ T, Call T → Env → Env * (Exception + T)).
Context (environ : string → option string).

#[local] Existing Instance M_ret.
#[local] Existing Instance M_bind.

Ltac run_call :=
  match goal with
  | |- context [oracle ?T ?c ?env] =>
      let E := fresh "E" in
      destruct (oracle T c env) as [? [?|?]] eqn:E; cbn
  end.

Lemma file_writes_app t1 t2 :
  Aux.file_writes (t1 ++ t2) = Aux.file_writes t1 ++ Aux.file_writes t2.
Proof. apply omap_app. Qed.

Lemma file_writes_cons ev t :
  Aux.file_writes (ev :: t)
  = match Aux.file_write ev with
    | Some w => w :: Aux.file_writes t
    | None => Aux.file_writes t
    end.
Proof. done. Qed.

Lemma file_writes_none t :
  Forall (λ ev, Trace.is_file_write ev = false) t → Aux.file_writes t = [].
Proof.
  induction 1 as [|ev t Hev _ IH]; [done|].
  rewrite file_writes_cons, IH.
  assert (Aux.file_write ev = None) as ->; [|done].
  destruct ev as [T c r|line]; [|done]. by destruct c.
Qed.

Lemma file_writes_no_fs t :
  Forall (λ ev, Trace.is_fs_write ev = false) t → Aux.file_writes t = [].
Proof.
  intros H. apply file_writes_none. eapply Forall_impl; [exact H|]. apply fs_write_file.
Qed.

(** What [save_snapshot] writes, and what it answers when nothing fails. *)
Lemma save_snapshot_shape username user_dir pd env :
  let r := save_snapshot oracle username user_dir pd env in
  Aux.ordered_writes (Aux.file_writes (trace_of r)) = true
  ∧ match outcome r with
    | inr resp =>
        ∃ ts now,
          Aux.file_writes (trace_of r)
          = [(path_join user_dir ("solved_" +:+ ts +:+ ".json"),
              SolvedJson (total_solved pd) (pd_solved pd), true);
             (path_join user_dir ("unsolved_" +:+ ts +:+ ".json"),
              UnsolvedJson (length (pd_unsolved pd)) (pd_unsolved pd), true);
             (path_join user_dir "stats.json",
              StatsJson (Aggregator.build_stats username ts now pd), true)]
          ∧ resp = mkResp
                     (SuccessBody ("Data saved for user " +:+ username)
                        (total_solved pd) (total_problems pd)
                        (path_join user_dir ("solved_" +:+ ts +:+ ".json"))
                        (path_join user_dir ("unsolved_" +:+ ts +:+ ".json"))
                        (path_join user_dir "stats.json"))
                     200
    | inl _ => Aux.stats_unsaved (Aux.file_writes (trace_of r))
    end.
Proof.
  unfold save_snapshot, mbind, M_bind, bind, call, Aux.stats_unsaved.
  repeat run_call; (split; [done|]); try (by repeat constructor).
  eauto.
Qed.

Lemma scrape_problem_data_counts driver wait env pd :
  outcome (scrape_problem_data oracle driver wait env) = inr (inr pd) →
  1 ≤ total_problems pd
  ∧ total_solved pd = length (pd_solved pd)
  ∧ total_problems pd = length (pd_solved pd) + length (pd_unsolved pd).
Proof.
  intros Hpd.
  destruct (scrape_problem_data_run oracle driver wait env) as (_ & _ & Ho).
  rewrite Ho in Hpd. injection Hpd as Hpd.
  destruct (outcome (extract_lists oracle driver wait env)) as [e|[s u]]; [done|].
  destruct s, u; cbn in Hpd; try done; injection Hpd as <-; cbn; lia.
Qed.

(** The steps either write nothing and answer 404, 401 or 500, or end
    with [save_snapshot] for an extraction that found a problem. *)
Lemma scrape_steps_shape driver user_number env :
  let r := scrape_steps oracle environ driver user_number env in
  (Aux.file_writes (trace_of r) = []
   ∧ ∀ resp, outcome r = inr resp →
             status resp = 404 ∨ status resp = 401 ∨ status resp = 500)
  ∨ ∃ username user_dir pd env',
      (1 ≤ total_problems pd
       ∧ total_solved pd = length (pd_solved pd)
       ∧ total_problems pd = length (pd_solved pd) + length (pd_unsolved pd))
      ∧ Aux.file_writes (trace_of r)
        = Aux.file_writes (trace_of (save_snapshot oracle username user_dir pd env'))
      ∧ outcome r = outcome (save_snapshot oracle username user_dir pd env').
Proof.
  unfold scrape_steps.
  destruct (PyStr.truthy _) as [username|]; [|left; split; [done|intros ? [= <-]; eauto]].
  destruct (PyStr.truthy _) as [password|]; [|left; split; [done|intros ? [= <-]; eauto]].
  set (wait := mkWait driver 20).
  pose proof (ensure_user_directory_no_file oracle username env) as Hmk.
  apply file_writes_none in Hmk.
  destruct (outcome (ensure_user_directory oracle username env)) as [e|user_dir] eqn:Emk.
  { left. rewrite (bind_inl _ _ _ _ Emk). by split. }
  rewrite (bind_inr _ _ _ _ Emk). cbn [trace_of outcome fst snd].
  rewrite file_writes_app, Hmk. cbn [app].
  set (env1 := final_env (ensure_user_directory oracle username env)).
  pose proof (login_no_write oracle driver wait username password env1) as Hlog.
  apply file_writes_no_fs in Hlog.
  destruct (login_outcome oracle driver wait username password env1)
    as (flag & message & Elog).
  rewrite (bind_inr _ _ _ _ Elog). cbn [trace_of outcome fst snd].
  rewrite file_writes_app, Hlog. cbn [app].
  destruct flag; cbn [negb]; [|left; split; [done|intros ? [= <-]; eauto]].
  set (env2 := final_env (login_to_cses oracle driver wait username password env1)).
  pose proof (extraction_no_write oracle driver wait env2) as Hspd.
  apply file_writes_no_fs in Hspd.
  destruct (scrape_problem_data_run oracle driver wait env2) as (_ & _ & Espd).
  rewrite (bind_inr _ _ _ _ Espd). cbn [trace_of outcome fst snd].
  rewrite file_writes_app, Hspd. cbn [app].
  destruct (match outcome (extract_lists oracle driver wait env2) with
            | inl e => _ | inr _ => _ end) as [failure|pd].
  - left. split; [done|intros ? [= <-]; eauto].
  - right. exists username, user_dir, pd, (final_env (scrape_problem_data oracle driver wait env2)).
    split; [by apply (scrape_problem_data_counts driver wait env2)|done].
Qed.

(** The same for the whole request. *)
Lemma scrape_shape user_number env :
  let r := scrape oracle environ user_number env in
  (Aux.file_writes (trace_of r) = []
   ∧ ∀ resp, outcome r = inr resp →
             status resp = 404 ∨ status resp = 401 ∨ status resp = 500)
  ∨ ∃ username user_dir pd env',
      (1 ≤ total_problems pd
       ∧ total_solved pd = length (pd_solved pd)
       ∧ total_problems pd = length (pd_solved pd) + length (pd_unsolved pd))
      ∧ Aux.file_writes (trace_of r)
        = Aux.file_writes (trace_of (save_snapshot oracle username user_dir pd env'))
      ∧ ∀ resp, outcome r = inr resp →
          match outcome (save_snapshot oracle username user_dir pd env') with
          | inl _ => status resp = 500
          | inr saved => resp = saved
          end.
Proof.
  destruct (outcome (setup_driver oracle env)) as [e|driver] eqn:E.
  { left. rewrite (scrape_not_started oracle environ _ _ _ E).
    cbn [trace_of outcome fst snd].
    split; [|intros ? [= <-]; eauto].
    apply file_writes_no_fs, setup_driver_no_write. }
  rewrite (scrape_started oracle environ _ _ _ E).
  cbn [trace_of outcome fst snd].
  rewrite !file_writes_app.
  rewrite (file_writes_no_fs _ (setup_driver_no_write oracle env)). cbn [app].
  change (Aux.file_writes [EvCall (Quit driver) _]) with (@nil (string * FileContent * bool)).
  rewrite app_nil_r.
  destruct (guarded_run (scrape_steps oracle environ driver user_number)
              (final_env (setup_driver oracle env))) as (-> & -> & ->).
  destruct (scrape_steps_shape driver user_number (final_env (setup_driver oracle env)))
    as [[Hw Hs]|(username & user_dir & pd & env' & Hpd & Hw & Ho)].
  - left. split; [done|]. intros resp.
    destruct (oracle () (Quit driver) _).2; [done|]. intros [= <-].
    destruct (outcome (scrape_steps oracle environ driver user_number _)); [eauto|].
    by apply Hs.
  - right. exists username, user_dir, pd, env'. split; [done|]. split; [done|].
    intros resp. destruct (oracle () (Quit driver) _).2; [done|]. intros [= <-].
    rewrite Ho. by destruct (outcome (save_snapshot oracle username user_dir pd env')).
Qed.

(** X7: a request writes at most three files, the solved list first, then
    the unsolved list, then the stats, and writes nothing more after a
    write that failed. *)
Theorem file_writes_ordered user_number env :
  Aux.ordered_writes (Aux.file_writes (trace_of (scrape oracle environ user_number env)))
  = true.
Proof.
  destruct (scrape_shape user_number env)
    as [[-> _]|(username & user_dir & pd & env' & _ & -> & _)]; [done|].
  apply save_snapshot_shape.
Qed.

(** X8: the status of every response is 200, 401, 404 or 500. *)
Theorem scrape_status_codes user_number env resp :
  outcome (scrape oracle environ user_number env) = inr resp →
  status resp = 200 ∨ status resp = 401 ∨ status resp = 404 ∨ status resp = 500.
Proof.
  intros Hr.
  destruct (scrape_shape user_number env)
    as [[_ Hs]|(username & user_dir & pd & env' & _ & _ & Hs)].
  - destruct (Hs resp Hr) as [?|[?|?]]; eauto.
  - specialize (Hs resp Hr).
    destruct (save_snapshot_shape username user_dir pd env') as [_ Hsave].
    destruct (outcome (save_snapshot oracle username user_dir pd env')); [eauto|].
    destruct Hsave as (ts & now & _ & ->). subst resp. eauto.
Qed.

(** X9: a response has status 200 exactly when the stats file was written
    without failure during the request; in that case the three files were
    written without failure, they hold at least one problem, their counts
    are the lengths of the lists they hold, and the counts and paths of
    the answer are those of the files. *)
Theorem success_means_persisted user_number env resp :
  outcome (scrape oracle environ user_number env) = inr resp →
  let ws := Aux.file_writes (trace_of (scrape oracle environ user_number env)) in
  (status resp ≠ 200 → Aux.stats_unsaved ws)
  ∧ (status resp = 200 →
     ∃ username user_dir ts now pd,
       (1 ≤ total_problems pd
        ∧ total_solved pd = length (pd_solved pd)
        ∧ total_problems pd = length (pd_solved pd) + length (pd_unsolved pd))
       ∧ ws = [(path_join user_dir ("solved_" +:+ ts +:+ ".json"),
                SolvedJson (total_solved pd) (pd_solved pd), true);
               (path_join user_dir ("unsolved_" +:+ ts +:+ ".json"),
                UnsolvedJson (length (pd_unsolved pd)) (pd_unsolved pd), true);
               (path_join user_dir "stats.json",
                StatsJson (Aggregator.build_stats username ts now pd), true)]
       ∧ body resp
         = SuccessBody ("Data saved for user " +:+ username)
             (total_solved pd) (total_problems pd)
             (path_join user_dir ("solved_" +:+ ts +:+ ".json"))
             (path_join user_dir ("unsolved_" +:+ ts +:+ ".json"))
             (path_join user_dir "stats.json")).
Proof.
  intros Hr ws. subst ws.
  destruct (scrape_shape user_number env)
    as [[-> Hs]|(username & user_dir & pd & env' & Hpd & -> & Hs)].
  - split; [by constructor|]. intros H200.
    destruct (Hs resp Hr) as [?|[?|?]]; congruence.
  - specialize (Hs resp Hr).
    destruct (save_snapshot_shape username user_dir pd env') as [_ Hsave].
    destruct (outcome (save_snapshot oracle username user_dir pd env')) as [e|saved].
    + split; [done|]. intros H200. congruence.
    + destruct Hsave as (ts & now & -> & ->). subst resp. split; [done|].
      intros _. exists username, user_dir, ts, now, pd. done.
Qed.

(** X10: when the session cannot be set up, the request answers 500 with
    the text of the exception, does nothing beyond the failed set-up, and
    calls [quit] on no session, since [driver] is still [None]. *)
Theorem setup_failure_response user_number env e :
  outcome (setup_driver oracle env) = inl e →
  let r := scrape oracle environ user_number env in
  outcome r = inr (mkResp (ErrorBody (exc_str e)) 500)
  ∧ trace_of r = trace_of (setup_driver oracle env)
  ∧ Forall (λ ev, ∀ d, Trace.is_quit d ev = false) (trace_of r).
Proof.
  intros E r. subst r. rewrite (scrape_not_started oracle environ _ _ _ E).
  cbn [trace_of outcome fst snd]. split; [done|]. split; [done|].
  clear E. unfold setup_driver, mbind, M_bind, bind, call.
  repeat run_call; by repeat constructor.
Qed.

(** X11: when the user directory cannot be created, the request answers
    500 with the text of that exception without attempting the login, and
    quits the session. *)
Theorem directory_failure_response user_number env driver username password env2 e :
  outcome (setup_driver oracle env) = inr driver →
  PyStr.truthy (environ ("CF_USERNAME_" +:+ pretty user_number)) = Some username →
  PyStr.truthy (environ ("CF_PASSWORD_" +:+ pretty user_number)) = Some password →
  oracle () (Mkdir (path_join BASE_DATA_DIR username)) (final_env (setup_driver oracle env))
  = (env2, inl e) →
  let r := scrape oracle environ user_number env in
  let quit := oracle () (Quit driver) env2 in
  trace_of r
  = trace_of (setup_driver oracle env)
    ++ [EvCall (Mkdir (path_join BASE_DATA_DIR username)) (inl e);
        EvCall (Quit driver) quit.2]
  ∧ outcome r
    = match quit.2 with
      | inl e' => inl e'
      | inr _ => inr (mkResp (ErrorBody (exc_str e)) 500)
      end.
Proof.
  intros E Hu Hp Emk r quit. subst r quit.
  rewrite (scrape_started oracle environ _ _ _ E).
  assert (scrape_steps oracle environ driver user_number
            (final_env (setup_driver oracle env))
          = (env2, [EvCall (Mkdir (path_join BASE_DATA_DIR username)) (inl e)], inl e))
    as Hsteps.
  { unfold scrape_steps. rewrite Hu, Hp.
    unfold ensure_user_directory, mbind, M_bind, bind, call. by rewrite Emk. }
  destruct (guarded_run (scrape_steps oracle environ driver user_number)
              (final_env (setup_driver oracle env))) as (-> & -> & ->).
  rewrite Hsteps. done.
Qed.

(** X12: when the login handshake answers [False], the request answers
    401 with the message of the handshake; it has created the user
    directory, it does not open the problem list, writes no file, and
    quits the session. *)
Theorem login_failure_response
    user_number env driver username password user_dir message :
  outcome (setup_driver oracle env) = inr driver →
  PyStr.truthy (environ ("CF_USERNAME_" +:+ pretty user_number)) = Some username →
  PyStr.truthy (environ ("CF_PASSWORD_" +:+ pretty user_number)) = Some password →
  let made := ensure_user_directory oracle username
                (final_env (setup_driver oracle env)) in
  outcome made = inr user_dir →
  let logged := login_to_cses oracle driver (mkWait driver 20) username password
                  (final_env made) in
  outcome logged = inr (false, message) →
  let r := scrape oracle environ user_number env in
  let quit := oracle () (Quit driver) (final_env logged) in
  trace_of r
  = trace_of (setup_driver oracle env) ++ (trace_of made ++ trace_of logged)
    ++ [EvCall (Quit driver) quit.2]
  ∧ Aux.file_writes (trace_of r) = []
  ∧ outcome r
    = match quit.2 with
      | inl e => inl e
      | inr _ => inr (mkResp (ErrorBody message) 401)
      end.
Proof.
  intros E Hu Hp made Hmade logged Hlogged r quit. subst r quit.
  rewrite (scrape_started oracle environ _ _ _ E).
  assert (scrape_steps oracle environ driver user_number
            (final_env (setup_driver oracle env))
          = (final_env logged, trace_of made ++ trace_of logged,
             inr (mkResp (ErrorBody message) 401)))
    as Hsteps.
  { unfold scrape_steps. rewrite Hu, Hp.
    rewrite (bind_inr _ _ _ _ Hmade). fold made.
    rewrite (bind_inr _ _ _ _ Hlogged). fold logged.
    cbn. by rewrite app_nil_r. }
  destruct (guarded_run (scrape_steps oracle environ driver user_number)
              (final_env (setup_driver oracle env))) as (-> & -> & ->).
  rewrite Hsteps. cbn [final_env trace_of outcome fst snd].
  split; [done|]. split; [|done].
  subst logged made. rewrite !file_writes_app.
  rewrite (file_writes_no_fs _ (setup_driver_no_write oracle env)).
  rewrite (file_writes_none _ (ensure_user_directory_no_file oracle username _)).
  rewrite (file_writes_no_fs _ (login_no_write oracle driver _ username password _)).
  done.
Qed.

End PipelineMore.

Lemma scrape_status_codes_witness :
  let resp := mkResp
                (SuccessBody "Data saved for user alice" 1 2
                   "scraped_data/alice/solved_20240101_120000.json"
                   "scraped_data/alice/unsolved_20240101_120000.json"
                   "scraped_data/alice/stats.json")
                200 in
  status resp = 200 ∨ status resp = 401 ∨ status resp = 404 ∨ status resp = 500.
Proof.
  intros resp.
  apply (scrape_status_codes Sample.graph_site Sample.one_user 1 0 resp).
  vm_compute. reflexivity.
Defined.

Lemma success_means_persisted_witness :
  let resp := mkResp
                (SuccessBody "Data saved for user alice" 1 2
                   "scraped_data/alice/solved_20240101_120000.json"
                   "scraped_data/alice/unsolved_20240101_120000.json"
                   "scraped_data/alice/stats.json")
                200 in
  ∃ username user_dir ts now pd,
    (1 ≤ total_problems pd
     ∧ total_solved pd = length (pd_solved pd)
     ∧ total_problems pd = length (pd_solved pd) + length (pd_unsolved pd))
    ∧ Aux.file_writes (trace_of (scrape Sample.graph_site Sample.one_user 1 0))
      = [(path_join user_dir ("solved_" +:+ ts +:+ ".json"),
          SolvedJson (total_solved pd) (pd_solved pd), true);
         (path_join user_dir ("unsolved_" +:+ ts +:+ ".json"),
          UnsolvedJson (length (pd_unsolved pd)) (pd_unsolved pd), true);
         (path_join user_dir "stats.json",
          StatsJson (Aggregator.build_stats username ts now pd), true)]
    ∧ body resp
      = SuccessBody ("Data saved for user " +:+ username)
          (total_solved pd) (total_problems pd)
          (path_join user_dir ("solved_" +:+ ts +:+ ".json"))
          (path_join user_dir ("unsolved_" +:+ ts +:+ ".json"))
          (path_join user_dir "stats.json").
Proof.
  intros resp.
  apply (success_means_persisted Sample.graph_site Sample.one_user 1 0 resp);
    vm_compute; reflexivity.
Defined.

Lemma setup_failure_response_witness :
  outcome (scrape Sample.crashing_site Sample.one_user 1 tt)
  = inr (mkResp (ErrorBody "chrome not reachable") 500)
  ∧ trace_of (scrape Sample.crashing_site Sample.one_user 1 tt)
    = trace_of (setup_driver Sample.crashing_site tt)
  ∧ Forall (λ ev, ∀ d, Trace.is_quit d ev = false)
      (trace_of (scrape Sample.crashing_site Sample.one_user 1 tt)).
Proof.
  apply (setup_failure_response Sample.crashing_site Sample.one_user 1 tt
           (mkExc "WebDriverException" "chrome not reachable")).
  reflexivity.
Defined.

Lemma login_failure_response_witness :
  trace_of (scrape Sample.refusing_site Sample.one_user 1 tt)
  = trace_of (setup_driver Sample.refusing_site tt)
    ++ (trace_of (ensure_user_directory Sample.refusing_site "alice" tt)
        ++ trace_of (login_to_cses Sample.refusing_site 1 (mkWait 1 20) "alice" "secret" tt))
    ++ [EvCall (Quit 1) (inr tt)]
  ∧ Aux.file_writes (trace_of (scrape Sample.refusing_site Sample.one_user 1 tt)) = []
  ∧ outcome (scrape Sample.refusing_site Sample.one_user 1 tt)
    = inr (mkResp (ErrorBody "Login failed. Please check credentials.") 401).
Proof.
  apply (login_failure_response Sample.refusing_site Sample.one_user 1 tt 1
           "alice" "secret" "scraped_data/alice"
           "Login failed. Please check credentials.");
    vm_compute; reflexivity.
Defined.

Lemma directory_failure_response_witness :
  trace_of (scrape Sample.readonly_disk Sample.one_user 1 tt)
  = trace_of (setup_driver Sample.readonly_disk tt)
    ++ [EvCall (Mkdir (path_join BASE_DATA_DIR "alice"))
          (inl (mkExc "PermissionError" "[Errno 13] Permission denied"));
        EvCall (Quit 1) (inr tt)]
  ∧ outcome (scrape Sample.readonly_disk Sample.one_user 1 tt)
    = inr (mkResp (ErrorBody "[Errno 13] Permission denied") 500).
Proof.
  apply (directory_failure_response Sample.readonly_disk Sample.one_user 1 tt 1
           "alice" "secret" tt (mkExc "PermissionError" "[Errno 13] Permission denied"));
    vm_compute; reflexivity.
Defined.

(** ** Further facts about the leaderboard reader *)

Section SortMore.

Context {A : Type} (key : A → nat).
Import PySort.

Lemma insert_desc_head x l :
  Forall (λ y, key y ≤ key x) l → insert_desc key x l = x :: l.
Proof.
  destruct 1 as [|y l Hy _]; [done|]. cbn [insert_desc].
  by destruct (Nat.ltb_spec (key x) (key y)); [lia|].
Qed.

Lemma sort_desc_sorted_id l :
  StronglySorted (λ a b, key b ≤ key a) l → sort_desc key l = l.
Proof.
  induction 1 as [|x l _ IH Hx]; [done|].
  unfold sort_desc in *. cbn [foldr]. rewrite IH. by apply insert_desc_head.
Qed.

Lemma sorted_nodup_strict l :
  StronglySorted (λ a b, key b ≤ key a) l → NoDup (key <$> l) →
  StronglySorted (λ a b, key b < key a) l.
Proof.
  induction 1 as [|x l _ IH Hx]; [constructor|].
  rewrite fmap_cons, NoDup_cons. intros [Hnot Hnd].
  constructor; [by apply IH|].
  apply Forall_forall. intros y Hy.
  rewrite Forall_forall in Hx. specialize (Hx y Hy).
  assert (key y ≠ key x); [|lia].
  intros Heq. apply Hnot. rewrite <- Heq. by apply list_elem_of_fmap_2.
Qed.

End SortMore.

Section LeaderboardMore.

Context {pyfloat : Type}.
Context (int_truediv : Z → Z → Exception + pyfloat) (float_mul : pyfloat → Z → pyfloat).

Lemma read_users_skips entries : ∀ users_data,
  read_users int_truediv float_mul entries users_data
  = read_users int_truediv float_mul (filter (λ d, Aux.has_stats d) entries) users_data.
Proof.
  induction entries as [|d entries IH]; intros users_data; [done|].
  rewrite filter_cons. destruct (decide (Aux.has_stats d)) as [Hh|Hh].
  - cbn [read_users]. destruct (is_dir d); [|apply IH].
    destruct (stats_json d) as [[e|st]|]; [done| |apply IH].
    destruct (with_progress int_truediv float_mul st); [done|apply IH].
  - cbn [read_users]. unfold Aux.has_stats in Hh.
    destruct (is_dir d); [|apply IH].
    destruct (stats_json d); [|apply IH]. by destruct Hh.
Qed.

(** X13: entries that are not directories, and directories without a
    stats file, have no effect on the leaderboard at all. *)
Theorem leaderboard_skips_other_entries (entries : list DirEntry) :
  leaderboard int_truediv float_mul (inr entries)
  = leaderboard int_truediv float_mul (inr (filter (λ d, Aux.has_stats d) entries)).
Proof. unfold leaderboard. by rewrite read_users_skips. Qed.

Lemma read_users_app pre : ∀ post users_data,
  Forall (λ d, readable int_truediv float_mul d = true) pre →
  ∃ new,
    read_users int_truediv float_mul (pre ++ post) users_data
    = read_users int_truediv float_mul post (users_data ++ new).
Proof.
  induction pre as [|d pre IH]; intros post users_data Hall.
  - exists []. by rewrite app_nil_r.
  - apply Forall_cons in Hall as [Hd Hall]. unfold readable in Hd.
    cbn [app read_users].
    destruct (is_dir d); cbn in Hd; [|by apply IH].
    destruct (stats_json d) as [[e|st]|]; [done| |by apply IH].
    destruct (with_progress int_truediv float_mul st) as [e|u]; [done|].
    destruct (IH post (users_data ++ [u]) Hall) as [new ->].
    exists (u :: new). by rewrite <- app_assoc.
Qed.

(** X14: the first stats file that cannot be parsed, or whose progress
    cannot be computed, decides the answer: 500 with the text of that
    exception, whatever the entries after it hold. *)
Theorem leaderboard_first_failure (pre post : list DirEntry) (d : DirEntry) (e : Exception) :
  Forall (λ d, readable int_truediv float_mul d = true) pre →
  is_dir d = true →
  stats_json d = Some (inl e)
  ∨ (∃ st, stats_json d = Some (inr st)
           ∧ with_progress int_truediv float_mul st = inl e) →
  leaderboard int_truediv float_mul (inr (pre ++ d :: post))
  = inl (mkResp (ErrorBody (exc_str e)) 500).
Proof.
  intros Hpre Hd Hfail. unfold leaderboard.
  destruct (read_users_app pre (d :: post) [] Hpre) as [new ->].
  cbn [read_users]. rewrite Hd.
  destruct Hfail as [->|(st & -> & ->)]; done.
Qed.

(** X15: when the stats files are met in descending order of
    [solved_count] already, the ranking is the discovery order. *)
Theorem leaderboard_keeps_descending_listing (entries : list DirEntry) :
  Forall (λ d, readable int_truediv float_mul d = true) entries →
  StronglySorted (λ a b, solved_count b ≤ solved_count a) (stored_stats entries) →
  ∃ users,
    leaderboard int_truediv float_mul (inr entries) = inr users
    ∧ stats <$> users = stored_stats entries.
Proof.
  intros Hall Hsorted.
  destruct (read_users_readable int_truediv float_mul entries [] Hall)
    as (new & Hr & Hs & _).
  cbn [app] in Hr. unfold leaderboard. rewrite Hr.
  rewrite sort_desc_sorted_id; [eauto|].
  rewrite <- Hs in Hsorted. clear -Hsorted.
  induction new as [|u new IH]; [constructor|].
  cbn in Hsorted. apply StronglySorted_inv in Hsorted as [Hs Hu].
  constructor; [by apply IH|].
  by rewrite Forall_fmap in Hu.
Qed.

(** X16: when all stored [solved_count]s differ, the ranking is strictly
    descending. *)
Theorem leaderboard_strictly_descending (entries : list DirEntry) :
  Forall (λ d, readable int_truediv float_mul d = true) entries →
  NoDup (solved_count <$> stored_stats entries) →
  ∃ users,
    leaderboard int_truediv float_mul (inr entries) = inr users
    ∧ StronglySorted (λ a b, solved_count (stats b) < solved_count (stats a)) users.
Proof.
  intros Hall Hnd.
  destruct (read_users_readable int_truediv float_mul entries [] Hall)
    as (new & Hr & Hs & _).
  cbn [app] in Hr. unfold leaderboard. rewrite Hr. eexists. split; [done|].
  apply (sorted_nodup_strict (λ x, solved_count (stats x))).
  - apply sort_desc_sorted.
  - rewrite sort_desc_perm. rewrite <- Hs, <- list_fmap_compose in Hnd. exact Hnd.
Qed.

End LeaderboardMore.

Lemma leaderboard_first_failure_witness :
  leaderboard Sample.q_truediv Sample.q_mul
    (inr ([mkEntry true (Some (inr (Sample.user "a" 5 10)))]
          ++ mkEntry true (Some (inl (mkExc "JSONDecodeError" "Expecting value")))
          :: [mkEntry true (Some (inr (Sample.user "b" 9 10)))]))
  = inl (mkResp (ErrorBody "Expecting value") 500).
Proof.
  apply (leaderboard_first_failure Sample.q_truediv Sample.q_mul
           [mkEntry true (Some (inr (Sample.user "a" 5 10)))]
           [mkEntry true (Some (inr (Sample.user "b" 9 10)))]
           (mkEntry true (Some (inl (mkExc "JSONDecodeError" "Expecting value"))))
           (mkExc "JSONDecodeError" "Expecting value")).
  - repeat constructor.
  - reflexivity.
  - left. reflexivity.
Defined.

Lemma leaderboard_keeps_descending_listing_witness :
  let entries := [mkEntry true (Some (inr (Sample.user "b" 9 10)));
                  mkEntry false None;
                  mkEntry true (Some (inr (Sample.user "a" 5 10)))] in
  ∃ users,
    leaderboard Sample.q_truediv Sample.q_mul (inr entries) = inr users
    ∧ stats <$> users = stored_stats entries.
Proof.
  intros entries.
  apply (leaderboard_keeps_descending_listing Sample.q_truediv Sample.q_mul entries).
  - repeat constructor.
  - repeat constructor.
Defined.

Lemma leaderboard_strictly_descending_witness :
  let entries := [mkEntry true (Some (inr (Sample.user "a" 5 10)));
                  mkEntry true (Some (inr (Sample.user "b" 9 10)))] in
  ∃ users,
    leaderboard Sample.q_truediv Sample.q_mul (inr entries) = inr users
    ∧ StronglySorted (λ a b, solved_count (stats b) < solved_count (stats a)) users.
Proof.
  intros entries.
  apply (leaderboard_strictly_descending Sample.q_truediv Sample.q_mul entries).
  - repeat constructor.
  - apply NoDup_cons. split; [|apply NoDup_singleton].
    intros Hin. apply list_elem_of_singleton in Hin. discriminate Hin.
Defined.

(** ** Further facts about the login handshake *)

Section LoginMore.

Context {Env : Type} (oracle : ∀ T, Call T → Env → Env * (Exception + T)).

#[local] Existing Instance M_ret.
#[local] Existing Instance M_bind.

Ltac run_call :=
  match goal with
  | |- context [oracle ?T ?c ?env] =>
      let E := fresh "E" in
      destruct (oracle T c env) as [? [?|?]] eqn:E; cbn
  end.

Lemma login_steps_raises driver wait username password env e :
  outcome (login_steps oracle driver wait username password env) = inl e →
  ∃ T (c : Call T),
    last (trace_of (login_steps oracle driver wait username password env))
    = Some (EvCall c (inl e)).
Proof.
  unfold login_steps, mbind, M_bind, bind, call.
  repeat (run_call; try (intros [= <-]; eexists _, _; reflexivity)).
  by destruct (PyStr.str_in _ _).
Qed.

(** X17: when a step of the login form raises, that call is the last
    thing the handshake does, and the message of the handshake is
    [Login error: ] followed by the text of its exception. *)
Theorem login_error_reports_failing_call driver wait username password env e :
  outcome (login_steps oracle driver wait username password env) = inl e →
  (∃ T (c : Call T),
      last (trace_of (login_to_cses oracle driver wait username password env))
      = Some (EvCall c (inl e)))
  ∧ outcome (login_to_cses oracle driver wait username password env)
    = inr (false, "Login error: " +:+ exc_str e).
Proof.
  intros E.
  destruct (login_handler_run oracle driver wait username password env) as (_ & -> & ->).
  rewrite E. split; [|done]. by apply login_steps_raises.
Qed.

(** X18: the handshake types the username first and the password second,
    each at most once and nothing else; a handshake whose steps all went
    through has typed both. *)
Theorem login_keys_sent driver wait username password env :
  ∃ nick pass,
    Aux.keys_sent (trace_of (login_to_cses oracle driver wait username password env))
      `prefix_of` [(nick, username); (pass, password)]
    ∧ (∀ res, outcome (login_steps oracle driver wait username password env) = inr res →
       Aux.keys_sent (trace_of (login_to_cses oracle driver wait username password env))
       = [(nick, username); (pass, password)]).
Proof.
  destruct (login_handler_run oracle driver wait username password env) as (_ & -> & _).
  unfold login_steps, mbind, M_bind, bind, call.
  repeat (run_call;
          try (unshelve (eexists _, _; split; [by eexists|done]); exact 0)).
  destruct (PyStr.str_in _ _); cbn; by eexists _, _; split; [eexists|].
Qed.

End LoginMore.

Lemma login_error_reports_failing_call_witness :
  (∃ T (c : Call T),
      last (trace_of (login_to_cses Sample.stalled_site 1 (mkWait 1 20) "alice" "secret" tt))
      = Some (EvCall c (inl Sample.TimeoutException)))
  ∧ outcome (login_to_cses Sample.stalled_site 1 (mkWait 1 20) "alice" "secret" tt)
    = inr (false, "Login error: " +:+ exc_str Sample.TimeoutException).
Proof.
  apply (login_error_reports_failing_call Sample.stalled_site 1 (mkWait 1 20)
           "alice" "secret" tt Sample.TimeoutException).
  reflexivity.
Defined.

(** ** Facts about the extractor with a fallible print *)

Section ExtractorIOFacts.

Context {Env : Type} (oracle : ∀ T, Call T → Env → Env * (Exception + T)).

#[local] Existing Instance M_ret.
#[local] Existing Instance M_bind.

Ltac run_call :=
  match goal with
  | |- context [oracle ?T ?c ?env] =>
      let E := fresh "E" in
      destruct (oracle T c env) as [? [?|?]] eqn:E; cbn
  end.

(** Reading an entry or a section leaves the lists alone. *)
Lemma read_problem_on_store section_name problem env lists :
  read_problem (on_store oracle) section_name problem (env, lists)
  = ((final_env (read_problem oracle section_name problem env), lists),
     trace_of (read_problem oracle section_name problem env),
     outcome (read_problem oracle section_name problem env)).
Proof.
  unfold read_problem, mbind, M_bind, bind, call, on_store. cbn.
  repeat (run_call; try done).
  by match goal with |- context [match ?o with Some _ => _ | None => _ end] =>
    destruct o end.
Qed.

Lemma read_section_on_store task_list env lists :
  read_section (on_store oracle) task_list (env, lists)
  = ((final_env (read_section oracle task_list env), lists),
     trace_of (read_section oracle task_list env),
     outcome (read_section oracle task_list env)).
Proof.
  unfold read_section, mbind, M_bind, bind, call, on_store. cbn.
  by repeat (run_call; try done).
Qed.

Lemma print_io_run line env lists :
  print_io oracle line (env, lists)
  = ((after_print oracle line env, lists),
     [EvCall (Print line) (oracle () (Print line) env).2],
     (oracle () (Print line) env).2).
Proof.
  unfold print_io, call, on_store, after_print. cbn.
  by destruct (oracle () (Print line) env).
Qed.

(** One turn of the inner loop: the record is appended, or the line of the
    failure is printed, and the outcome of the turn is that of the print. *)
Lemma problem_iteration_io_run section_name problem env lists :
  problem_iteration_io oracle section_name problem (env, lists)
  = match outcome (read_problem oracle section_name problem env) with
    | inr r =>
        ((final_env (read_problem oracle section_name problem env),
          append_problem lists r),
         trace_of (read_problem oracle section_name problem env), inr tt)
    | inl e =>
        ((after_print oracle ("Error processing problem: " +:+ exc_str e)
            (final_env (read_problem oracle section_name problem env)), lists),
         trace_of (read_problem oracle section_name problem env)
         ++ [EvCall (Print ("Error processing problem: " +:+ exc_str e))
               (oracle () (Print ("Error processing problem: " +:+ exc_str e))
                  (final_env (read_problem oracle section_name problem env))).2],
         (oracle () (Print ("Error processing problem: " +:+ exc_str e))
            (final_env (read_problem oracle section_name problem env))).2)
    end.
Proof.
  unfold problem_iteration_io, try_except, mbind, M_bind, bind.
  rewrite read_problem_on_store.
  destruct (outcome (read_problem oracle section_name problem env)) as [e|r]; cbn.
  - by rewrite print_io_run.
  - by rewrite app_nil_r.
Qed.

Lemma section_iteration_io_run task_list env lists :
  section_iteration_io oracle task_list (env, lists)
  = match outcome (read_section oracle task_list env) with
    | inr (section_name, problems) =>
        let r := try_except
                   (for_each problems
                      (λ _ problem, problem_iteration_io oracle section_name problem) tt)
                   (λ e, print_io oracle ("Error processing section: " +:+ exc_str e))
                   (final_env (read_section oracle task_list env), lists) in
        (final_env r, trace_of (read_section oracle task_list env) ++ trace_of r,
         outcome r)
    | inl e =>
        ((after_print oracle ("Error processing section: " +:+ exc_str e)
            (final_env (read_section oracle task_list env)), lists),
         trace_of (read_section oracle task_list env)
         ++ [EvCall (Print ("Error processing section: " +:+ exc_str e))
               (oracle () (Print ("Error processing section: " +:+ exc_str e))
                  (final_env (read_section oracle task_list env))).2],
         (oracle () (Print ("Error processing section: " +:+ exc_str e))
            (final_env (read_section oracle task_list env))).2)
    end.
Proof.
  unfold section_iteration_io, try_except, mbind, M_bind, bind.
  rewrite read_section_on_store.
  destruct (outcome (read_section oracle task_list env)) as [e|[name ps]]; cbn.
  - by rewrite print_io_run.
  - destruct (for_each ps _ tt _) as [[st1 t1] [e|[]]]; cbn; [|done].
    destruct (print_io oracle _ st1) as [[st2 t2] r2]. cbn. by rewrite app_assoc.
Qed.

(** *** When printing works *)

Section PrintingWorks.

Hypothesis Hprint : print_never_raises oracle.

Lemma inner_loop_io section_name problems : ∀ env lists,
  final_env (for_each problems
               (λ _ problem, problem_iteration_io oracle section_name problem) tt
               (env, lists))
  = ((entry_outcomes_io oracle section_name problems env).2,
     fold_left keep_entry (entry_outcomes_io oracle section_name problems env).1 lists)
  ∧ outcome (for_each problems
               (λ _ problem, problem_iteration_io oracle section_name problem) tt
               (env, lists))
    = inr tt.
Proof.
  induction problems as [|p ps IH]; intros env lists; [done|].
  pose proof (problem_iteration_io_run section_name p env lists) as Hrun.
  cbn [entry_outcomes_io].
  destruct (outcome (read_problem oracle section_name p env)) as [e|r] eqn:E.
  - rewrite Hprint in Hrun.
    assert (outcome (problem_iteration_io oracle section_name p (env, lists)) = inr tt)
      as Ho by (by rewrite Hrun).
    rewrite for_each_cons, (bind_inr _ _ _ _ Ho), Hrun.
    cbn [final_env outcome fst snd].
    destruct (IH (after_print oracle ("Error processing problem: " +:+ exc_str e)
                    (final_env (read_problem oracle section_name p env))) lists)
      as [-> ->].
    by destruct (entry_outcomes_io oracle section_name ps _).
  - assert (outcome (problem_iteration_io oracle section_name p (env, lists)) = inr tt)
      as Ho by (by rewrite Hrun).
    rewrite for_each_cons, (bind_inr _ _ _ _ Ho), Hrun.
    cbn [final_env outcome fst snd].
    destruct (IH (final_env (read_problem oracle section_name p env))
                (append_problem lists r)) as [-> ->].
    by destruct (entry_outcomes_io oracle section_name ps _).
Qed.

Lemma entry_outcomes_io_length section_name problems : ∀ env,
  length (entry_outcomes_io oracle section_name problems env).1 = length problems.
Proof.
  induction problems as [|p ps IH]; intros env; [done|].
  cbn [entry_outcomes_io].
  match goal with |- context [entry_outcomes_io oracle section_name ps ?e] =>
    specialize (IH e); destruct (entry_outcomes_io oracle section_name ps e) end.
  cbn in *. by rewrite IH.
Qed.

Lemma outer_loop_io task_lists : ∀ env lists,
  final_env (for_each task_lists
               (λ _ task_list, section_iteration_io oracle task_list) tt (env, lists))
  = ((section_outcomes_io oracle task_lists env).2,
     fold_left keep_section (section_outcomes_io oracle task_lists env).1 lists)
  ∧ outcome (for_each task_lists
               (λ _ task_list, section_iteration_io oracle task_list) tt (env, lists))
    = inr tt.
Proof.
  induction task_lists as [|tl tls IH]; intros env lists; [done|].
  pose proof (section_iteration_io_run tl env lists) as Hrun.
  cbn [section_outcomes_io].
  destruct (outcome (read_section oracle tl env)) as [e|[name ps]] eqn:E.
  - rewrite Hprint in Hrun.
    assert (outcome (section_iteration_io oracle tl (env, lists)) = inr tt)
      as Ho by (by rewrite Hrun).
    rewrite for_each_cons, (bind_inr _ _ _ _ Ho), Hrun.
    cbn [final_env outcome fst snd].
    destruct (IH (after_print oracle ("Error processing section: " +:+ exc_str e)
                    (final_env (read_section oracle tl env))) lists) as [-> ->].
    by destruct (section_outcomes_io oracle tls _).
  - destruct (inner_loop_io name ps (final_env (read_section oracle tl env)) lists)
      as [He Hi].
    rewrite (try_except_inr _ _ _ _ Hi) in Hrun. cbn in Hrun. rewrite He, Hi in Hrun.
    assert (outcome (section_iteration_io oracle tl (env, lists)) = inr tt)
      as Ho by (by rewrite Hrun).
    rewrite for_each_cons, (bind_inr _ _ _ _ Ho), Hrun.
    cbn [final_env outcome fst snd].
    destruct (entry_outcomes_io oracle name ps _) as [eos env1]. cbn [fst snd].
    destruct (IH env1 (fold_left keep_entry eos lists)) as [-> ->].
    by destruct (section_outcomes_io oracle tls _).
Qed.

Lemma section_outcomes_io_length task_lists : ∀ env,
  length (section_outcomes_io oracle task_lists env).1 = length task_lists.
Proof.
  induction task_lists as [|tl tls IH]; intros env; [done|].
  cbn [section_outcomes_io].
  destruct (outcome (read_section oracle tl env)) as [e|[name ps]].
  - match goal with |- context [section_outcomes_io oracle tls ?e] =>
      specialize (IH e); destruct (section_outcomes_io oracle tls e) end.
    cbn in *. by rewrite IH.
  - destruct (entry_outcomes_io oracle name ps _) as [eos env1].
    specialize (IH env1).
    destruct (section_outcomes_io oracle tls _). cbn in *. by rewrite IH.
Qed.

(** X21: when printing never raises, a failure while reading an entry, or
    the heading and entry list of a section, leaves out that unit only.
    Both loops end normally; the inner loop reads every entry and the
    outer loop every section, each after the line of the failure before
    it was printed, and the two lists are extended by exactly the records
    that could be read, in page order. Once the problem list is open and
    its task lists are listed, [scrape_problem_data] answers those
    records, or "No problems found on the page" when there is none. *)
Theorem partial_extraction_when_printing_works :
  (∀ section_name problems env lists,
      let os := (entry_outcomes_io oracle section_name problems env).1 in
      let r := for_each problems
                 (λ _ problem, problem_iteration_io oracle section_name problem) tt
                 (env, lists) in
      outcome r = inr tt
      ∧ (final_env r).2 = filed (entries_read os) lists
      ∧ length os = length problems)
  ∧ (∀ task_lists env lists,
      let os := (section_outcomes_io oracle task_lists env).1 in
      let r := for_each task_lists
                 (λ _ task_list, section_iteration_io oracle task_list) tt
                 (env, lists) in
      outcome r = inr tt
      ∧ (final_env r).2 = filed (records_read os) lists
      ∧ length os = length task_lists)
  ∧ (∀ driver wait env lists env1 env2 env3 env4 found task_lists,
      oracle () (Get driver "https://cses.fi/problemset/list/") env = (env1, inr tt) →
      oracle () (SleepUniform 3 5) env1 = (env2, inr tt) →
      oracle Element (UntilPresent wait By_CLASS_NAME "task-list") env2
      = (env3, inr found) →
      oracle (list Element) (DriverFindElements driver By_CLASS_NAME "task-list") env3
      = (env4, inr task_lists) →
      let rs := records_read (section_outcomes_io oracle task_lists env4).1 in
      outcome (scrape_problem_data_io oracle driver wait (env, lists))
      = inr (if is_empty (filter (λ r, solved r) rs)
                && is_empty (filter (λ r, ¬ solved r) rs)
             then inl "No problems found on the page"
             else inr (Aggregator.problems_data
                         (filter (λ r, solved r) rs) (filter (λ r, ¬ solved r) rs)))).
Proof.
  split; [|split].
  - intros section_name problems env lists os r. subst os r.
    destruct (inner_loop_io section_name problems env lists) as [-> ->].
    cbn [snd]. rewrite keep_entries_filed.
    split; [done|]. split; [done|apply entry_outcomes_io_length].
  - intros task_lists env lists os r. subst os r.
    destruct (outer_loop_io task_lists env lists) as [-> ->].
    cbn [snd]. rewrite keep_sections_filed.
    split; [done|]. split; [done|apply section_outcomes_io_length].
  - intros driver wait env lists env1 env2 env3 env4 found task_lists E1 E2 E3 E4 rs.
    subst rs.
    unfold scrape_problem_data_io, extract_lists_io, try_except, mbind, M_bind, bind,
      call, on_store, new_lists, read_lists.
    cbn. rewrite E1. cbn. rewrite E2. cbn. rewrite E3. cbn. rewrite E4. cbn.
    destruct (outer_loop_io task_lists env4 ([], [])) as [He Ho].
    match goal with |- context [for_each task_lists ?b tt ?st0] =>
      destruct (for_each task_lists b tt st0) as [[st t] r] end.
    cbn in He, Ho. subst st r. cbn.
    rewrite keep_sections_filed. unfold filed. cbn.
    by destruct (is_empty _ && is_empty _).
Qed.

End PrintingWorks.

(** *** When printing fails *)

Lemma problem_iteration_io_raises section_name problem st e :
  outcome (problem_iteration_io oracle section_name problem st) = inl e →
  ∃ line,
    last (trace_of (problem_iteration_io oracle section_name problem st))
    = Some (EvCall (Print line) (inl e)).
Proof.
  destruct st as [env lists]. rewrite problem_iteration_io_run.
  destruct (outcome (read_problem oracle section_name problem env)) as [e0|r]; [|done].
  cbn. intros ->. eexists. apply last_snoc.
Qed.

Lemma for_each_raises_print {X} (body : X → M (Store Env) unit) xs :
  (∀ x st e, outcome (body x st) = inl e →
             ∃ line, last (trace_of (body x st)) = Some (EvCall (Print line) (inl e))) →
  ∀ st e, outcome (for_each xs (λ _ x, body x) tt st) = inl e →
          ∃ line, last (trace_of (for_each xs (λ _ x, body x) tt st))
                  = Some (EvCall (Print line) (inl e)).
Proof.
  intros Hbody. induction xs as [|x xs IH]; intros st e; [done|].
  rewrite for_each_cons.
  destruct (outcome (body x st)) as [e0|[]] eqn:E.
  - rewrite (bind_inl _ _ _ _ E). cbn. intros [= <-]. by apply Hbody.
  - rewrite (bind_inr _ _ _ _ E). cbn. intros H.
    destruct (IH _ _ H) as [line Hl]. exists line. by rewrite last_app, Hl.
Qed.

Lemma section_iteration_io_raises task_list st e :
  outcome (section_iteration_io oracle task_list st) = inl e →
  ∃ line,
    last (trace_of (section_iteration_io oracle task_list st))
    = Some (EvCall (Print line) (inl e)).
Proof.
  destruct st as [env lists]. rewrite section_iteration_io_run.
  destruct (outcome (read_section oracle task_list env)) as [e0|[name ps]].
  - cbn. intros ->. eexists. apply last_snoc.
  - cbn [outcome trace_of fst snd].
    match goal with |- context [try_except ?m ?h ?st0] =>
      destruct (outcome (m st0)) as [e1|[]] eqn:E;
      [rewrite (try_except_inl m h st0 _ E); cbn beta;
       destruct (final_env (m st0)) as [env1 lists1]
      |by rewrite (try_except_inr m h st0 _ E), E]
    end.
    rewrite print_io_run. cbn.
    intros ->. eexists. rewrite !app_assoc. apply last_snoc.
Qed.

Lemma extract_lists_io_raises driver wait st e :
  outcome (extract_lists_io oracle driver wait st) = inl e →
  ∃ ev,
    last (trace_of (extract_lists_io oracle driver wait st)) = Some ev
    ∧ Aux.raised ev = Some e
    ∧ (length (trace_of (extract_lists_io oracle driver wait st)) ≤ 4
       ∨ Aux.is_print ev = true).
Proof.
  destruct st as [env lists].
  unfold extract_lists_io, mbind, M_bind, bind, call, on_store, new_lists, read_lists.
  cbn.
  repeat (run_call;
          try (intros [= <-]; eexists; split; [reflexivity|];
               split; [reflexivity|left; cbn; lia])).
  match goal with |- context [for_each ?tls ?b tt ?st0] =>
    pose proof (for_each_raises_print (section_iteration_io oracle) tls
                  section_iteration_io_raises st0) as Hloop;
    destruct (for_each tls b tt st0) as [[st1 t1] [e'|[]]]
  end; cbn in *; [|done].
  match goal with
  | H : inl _ = inl _ |- _ => injection H as <-
  | |- _ → _ => intros [= <-]
  end.
  destruct (Hloop e' eq_refl) as [line Hl].
  exists (EvCall (Print line) (inl e')). split; [|split; [done|by right]].
  by rewrite !last_cons, Hl.
Qed.

(** X19: the failure message of [scrape_problem_data] is either "No
    problems found on the page" or [Scraping error: ] followed by the text
    of an exception raised by the last call made, which is one of the at
    most four calls before the loops (open the list, pause, wait for a
    task list, list the task lists) or a [print] of a handler: no failure
    of reading a heading, an entry or an attribute ends the extraction by
    itself. *)
Theorem scraping_error_origin driver wait st message :
  outcome (scrape_problem_data_io oracle driver wait st) = inr (inl message) →
  message = "No problems found on the page"
  ∨ ∃ e ev,
      message = "Scraping error: " +:+ exc_str e
      ∧ last (trace_of (scrape_problem_data_io oracle driver wait st)) = Some ev
      ∧ Aux.raised ev = Some e
      ∧ (length (trace_of (scrape_problem_data_io oracle driver wait st)) ≤ 4
         ∨ Aux.is_print ev = true).
Proof.
  pose proof (extract_lists_io_raises driver wait st) as Hraise.
  unfold scrape_problem_data_io, try_except, mbind, M_bind, bind.
  destruct (extract_lists_io oracle driver wait st) as [[st1 t1] [e|[s u]]]; cbn in *.
  - intros [= <-]. right. destruct (Hraise e eq_refl) as (ev & Hl & Hr & Hlen).
    exists e, ev. by rewrite app_nil_r.
  - destruct (is_empty s && is_empty u); cbn; [|done]. intros [= <-]. by left.
Qed.


End ExtractorIOFacts.

Lemma partial_extraction_when_printing_works_witness :
  let rs := records_read (section_outcomes_io Sample.graph_site [10; 20] 4).1 in
  rs = [mkProblem "Counting Rooms" (Some "https://cses.fi/problemset/task/1192")
          "Graph Algorithms" true;
        mkProblem "Labyrinth" (Some "https://cses.fi/problemset/task/1192")
          "Graph Algorithms" false]
  ∧ outcome (scrape_problem_data_io Sample.graph_site 1 (mkWait 1 20) (0, ([], [])))
    = inr (if is_empty (filter (λ r, solved r) rs)
              && is_empty (filter (λ r, ¬ solved r) rs)
           then inl "No problems found on the page"
           else inr (Aggregator.problems_data
                       (filter (λ r, solved r) rs) (filter (λ r, ¬ solved r) rs))).
Proof.
  intros rs. split; [reflexivity|].
  destruct (partial_extraction_when_printing_works Sample.graph_site) as (_ & _ & H).
  - intros line env. reflexivity.
  - apply (H 1 (mkWait 1 20) 0 ([], []) 1 2 3 4 2 [10; 20]); reflexivity.
Defined.

Lemma scraping_error_origin_witness :
  "Scraping error: [Errno 32] Broken pipe" = "No problems found on the page"
  ∨ ∃ e ev,
      "Scraping error: [Errno 32] Broken pipe" = "Scraping error: " +:+ exc_str e
      ∧ last (trace_of (scrape_problem_data_io Sample.mute_site 1 (mkWait 1 20)
                          (0, ([], []))))
        = Some ev
      ∧ Aux.raised ev = Some e
      ∧ (length (trace_of (scrape_problem_data_io Sample.mute_site 1 (mkWait 1 20)
                             (0, ([], []))))
         ≤ 4
         ∨ Aux.is_print ev = true).
Proof.
  apply (scraping_error_origin Sample.mute_site 1 (mkWait 1 20) (0, ([], []))
           "Scraping error: [Errno 32] Broken pipe").
  reflexivity.
Defined.

(** ** Two paths the handlers miss *)

(** C8: the page of [Sample.graph_site] has a section without heading
    followed by the section "Graph Algorithms" with two readable entries.
    When the standard output is a broken pipe, the [print] of the handler
    of the first section raises, the exception leaves the loop, and
    [scrape_problem_data] answers "Scraping error: [Errno 32] Broken pipe":
    the second section is never read and none of its records is returned,
    and the request answers 500. The same page read with a working [print]
    yields both records, and the request saves them. *)
Theorem failed_print_ends_extraction :
  let broken := scrape_problem_data_io Sample.mute_site 1 (mkWait 1 20) (0, ([], [])) in
  let working := scrape_problem_data_io Sample.graph_site 1 (mkWait 1 20) (0, ([], [])) in
  trace_of broken
  = [EvCall (Get 1 "https://cses.fi/problemset/list/") (inr tt);
     EvCall (SleepUniform 3 5) (inr tt);
     EvCall (UntilPresent (mkWait 1 20) By_CLASS_NAME "task-list") (inr 2);
     EvCall (DriverFindElements 1 By_CLASS_NAME "task-list") (inr [10; 20]);
     EvCall (FindElement 10 By_TAG_NAME "h2") (inl Sample.NoSuchElement);
     EvCall (Print "Error processing section: no such element")
       (inl Sample.BrokenPipeError)]
  ∧ outcome broken = inr (inl "Scraping error: [Errno 32] Broken pipe")
  ∧ outcome working
    = inr (inr (Aggregator.problems_data
                  [mkProblem "Counting Rooms" (Some "https://cses.fi/problemset/task/1192")
                     "Graph Algorithms" true]
                  [mkProblem "Labyrinth" (Some "https://cses.fi/problemset/task/1192")
                     "Graph Algorithms" false]))
  ∧ outcome (scrape_io Sample.mute_site Sample.one_user 1 (0, ([], [])))
    = inr (mkResp (ErrorBody "Scraping error: [Errno 32] Broken pipe") 500)
  ∧ outcome (scrape_io Sample.graph_site Sample.one_user 1 (0, ([], [])))
    = inr (mkResp
             (SuccessBody "Data saved for user alice" 1 2
                "scraped_data/alice/solved_20240101_120000.json"
                "scraped_data/alice/unsolved_20240101_120000.json"
                "scraped_data/alice/stats.json")
             200).
Proof. by vm_compute. Qed.

(** C9: [webdriver.Chrome()] opens session 1 and [driver.implicitly_wait(10)]
    raises. [setup_driver] then raises with the browser running and the
    variable [driver] of [scrape] still [None]: the request answers 500
    after these two calls, and [quit] is called on no session. Session 1
    stays open. Both models of the request run the same way here. *)
Theorem session_left_open :
  let r := scrape_io Sample.crashing_site Sample.one_user 1 (tt, ([], [])) in
  trace_of r
  = [EvCall (ChromeNew chrome_options) (inr 1);
     EvCall (ImplicitlyWait 1 10) (inl (mkExc "WebDriverException" "chrome not reachable"))]
  ∧ Trace.sessions_opened (trace_of r) = [1]
  ∧ filter (λ ev, Trace.is_quit 1 ev) (trace_of r) = []
  ∧ outcome r = inr (mkResp (ErrorBody "chrome not reachable") 500)
  ∧ scrape Sample.crashing_site Sample.one_user 1 tt = (tt, trace_of r, outcome r).
Proof. by vm_compute. Qed.

(** ** The two models agree when printing is silent *)

Section ModelsAgree.

Context {Env : Type} (oracle : ∀ T, Call T → Env → Env * (Exception + T)).
Context (environ : string → option string).

#[local] Existing Instance M_ret.
#[local] Existing Instance M_bind.

Ltac run_call :=
  match goal with
  | |- context [oracle ?T ?c ?env] =>
      let E := fresh "E" in
      destruct (oracle T c env) as [? [?|?]] eqn:E; cbn
  end.

Lemma read_problem_prints_nothing section_name problem env :
  Aux.as_printed <$> trace_of (read_problem oracle section_name problem env)
  = trace_of (read_problem oracle section_name problem env).
Proof.
  unfold read_problem, mbind, M_bind, bind, call.
  repeat (run_call; try done).
  by match goal with |- context [match ?o with Some _ => _ | None => _ end] =>
    destruct o end.
Qed.

Lemma read_section_prints_nothing task_list env :
  Aux.as_printed <$> trace_of (read_section oracle task_list env)
  = trace_of (read_section oracle task_list env).
Proof.
  unfold read_section, mbind, M_bind, bind, call.
  by repeat (run_call; try done).
Qed.

Hypothesis Hsilent : print_is_silent oracle.

Lemma problem_iteration_agree section_name problem env lists :
  Aux.same_run (problem_iteration_io oracle section_name problem (env, lists))
               (problem_iteration oracle section_name lists problem env).
Proof.
  rewrite problem_iteration_io_run.
  pose proof (read_problem_prints_nothing section_name problem env) as Hnp.
  unfold Aux.same_run, problem_iteration, try_except, print, mbind, M_bind, bind, ret,
    after_print.
  destruct (read_problem oracle section_name problem env) as [[env1 t1] [e|r]];
    cbn in *.
  - rewrite Hsilent. cbn. by rewrite fmap_app, Hnp.
  - by rewrite app_nil_r.
Qed.

Lemma for_each_agree {X} (body_io : X → M (Store Env) unit)
    (body : Lists → X → M Env Lists) xs :
  (∀ x env lists, Aux.same_run (body_io x (env, lists)) (body lists x env)) →
  ∀ env lists,
    Aux.same_run (for_each xs (λ _ x, body_io x) tt (env, lists))
                 (for_each xs body lists env).
Proof.
  intros Hbody. induction xs as [|x xs IH]; intros env lists; [done|].
  rewrite !for_each_cons. unfold mbind, M_bind, bind.
  destruct (Hbody x env lists) as (Ho & Hr & He & Ht).
  destruct (body_io x (env, lists)) as [[[env1 lists1] t1] r1].
  destruct (body lists x env) as [[env1' t1'] r1'].
  cbn in Ho, Hr, He, Ht. subst r1 r1' env1' t1'.
  destruct (IH env1 lists1) as (Ho & Hr & He & Ht). cbn.
  destruct (for_each xs (λ _ x, body_io x) tt (env1, lists1))
    as [[[env2 lists2] t2] r2].
  destruct (for_each xs body lists1 env1) as [[env2' t2'] r2'].
  unfold Aux.same_run. cbn in *. subst. by rewrite fmap_app.
Qed.

Lemma section_iteration_agree task_list env lists :
  Aux.same_run (section_iteration_io oracle task_list (env, lists))
               (section_iteration oracle lists task_list env).
Proof.
  pose proof (read_section_prints_nothing task_list env) as Hnp.
  unfold section_iteration, try_except, print, mbind, M_bind, bind, ret. cbn beta.
  rewrite section_iteration_io_run. unfold after_print.
  destruct (read_section oracle task_list env) as [[env1 t1] [e|[name ps]]];
    cbn [outcome final_env trace_of fst snd] in *.
  - rewrite Hsilent. unfold Aux.same_run. cbn. by rewrite fmap_app, Hnp.
  - destruct (for_each_agree (problem_iteration_io oracle name)
                (problem_iteration oracle name) ps
                (problem_iteration_agree name) env1 lists) as (Ho & Hr & He & Ht).
    rewrite (try_except_inr _ _ _ _ Ho). cbn zeta.
    destruct (for_each ps (λ _ x, problem_iteration_io oracle name x) tt (env1, lists))
      as [[[env2 lists2] t2] r2].
    destruct (for_each ps (problem_iteration oracle name) lists env1)
      as [[env2' t2'] r2'].
    unfold Aux.same_run. cbn in *. subst. by rewrite fmap_app, Hnp.
Qed.

Lemma scrape_problem_data_agree driver wait :
  Aux.agree (scrape_problem_data_io oracle driver wait)
            (scrape_problem_data oracle driver wait).
Proof.
  intros env lists.
  unfold Aux.same_answer, scrape_problem_data_io, scrape_problem_data,
    extract_lists_io, extract_lists,
    try_except, mbind, M_bind, bind, call, on_store, new_lists, read_lists, ret.
  cbn.
  repeat (run_call; try done).
  match goal with |- context [for_each ?tls ?b tt ?st0] =>
    destruct (for_each_agree (section_iteration_io oracle) (section_iteration oracle) tls
                section_iteration_agree st0.1 ([], [])) as (Ho & Hr & He & Ht);
    cbn [fst snd] in Ho, Hr, He, Ht;
    destruct (for_each tls b tt st0) as [[[env2 lists2] t2] r2]
  end.
  match goal with |- context [for_each ?tls ?b ([], []) ?env0] =>
    destruct (for_each tls b ([], []) env0) as [[env2' t2'] r2']
  end.
  cbn in *. subst. destruct lists2 as [solved_problems unsolved_problems].
  destruct (is_empty solved_problems && is_empty unsolved_problems); cbn;
    rewrite !app_nil_r, ?fmap_app; done.
Qed.

(** X22: in a world where [print] never raises and changes nothing, the
    extractor with the lists in the store and the fallible [print] does
    what the extractor used by [scrape] does: same answer, same world
    afterwards, and the same events, each call of [print] being the line
    printed. *)
Theorem extractors_agree driver wait env lists :
  let r_io := scrape_problem_data_io oracle driver wait (env, lists) in
  let r := scrape_problem_data oracle driver wait env in
  outcome r_io = outcome r
  ∧ (final_env r_io).1 = final_env r
  ∧ Aux.as_printed <$> trace_of r_io = trace_of r.
Proof. apply scrape_problem_data_agree. Qed.

(** *** The whole request *)

Lemma agree_ret {A} (a : A) : Aux.agree (Env:=Env) (ret a) (ret a).
Proof. by intros env lists. Qed.

Lemma agree_call {T} (c : Call T) :
  (∀ r, Aux.as_printed (EvCall c r) = EvCall c r) →
  Aux.agree (call (on_store oracle) c) (call oracle c).
Proof.
  intros Hc env lists. unfold Aux.same_answer, call, on_store. cbn [fst snd].
  destruct (oracle T c env) as [env1 r]. cbn -[Aux.as_printed]. by rewrite Hc.
Qed.

Lemma agree_bind {A B} (m_io : M (Store Env) A) (m : M Env A)
    (k_io : A → M (Store Env) B) (k : A → M Env B) :
  Aux.agree m_io m → (∀ a, Aux.agree (k_io a) (k a)) →
  Aux.agree (x ← m_io; k_io x) (x ← m; k x).
Proof.
  intros Hm Hk env lists. destruct (Hm env lists) as (Ho & He & Ht).
  unfold Aux.same_answer, mbind, M_bind, bind in *.
  destruct (m_io (env, lists)) as [[[env1 lists1] t1] r1].
  destruct (m env) as [[env1' t1'] r1']. cbn in Ho, He, Ht. subst r1 env1' t1'.
  destruct r1' as [e|a]; [done|]. cbn.
  destruct (Hk a env1 lists1) as (Ho & He & Ht).
  destruct (k_io a (env1, lists1)) as [[[env2 lists2] t2] r2].
  destruct (k a env1) as [[env2' t2'] r2']. cbn in *. subst r2 env2' t2'.
  by rewrite fmap_app.
Qed.

Lemma agree_try_except {A} (m_io : M (Store Env) A) (m : M Env A)
    (h_io : Exception → M (Store Env) A) (h : Exception → M Env A) :
  Aux.agree m_io m → (∀ e, Aux.agree (h_io e) (h e)) →
  Aux.agree (try_except m_io h_io) (try_except m h).
Proof.
  intros Hm Hh env lists. destruct (Hm env lists) as (Ho & He & Ht).
  unfold Aux.same_answer, try_except in *.
  destruct (m_io (env, lists)) as [[[env1 lists1] t1] r1].
  destruct (m env) as [[env1' t1'] r1']. cbn in Ho, He, Ht. subst r1 env1' t1'.
  destruct r1' as [e|a]; [|done]. cbn.
  destruct (Hh e env1 lists1) as (Ho & He & Ht).
  destruct (h_io e (env1, lists1)) as [[[env2 lists2] t2] r2].
  destruct (h e env1) as [[env2' t2'] r2']. cbn in *. subst r2 env2' t2'.
  by rewrite fmap_app.
Qed.

Lemma agree_try_finally {A} (m_io : M (Store Env) A) (m : M Env A)
    (fin_io : M (Store Env) unit) (fin : M Env unit) :
  Aux.agree m_io m → Aux.agree fin_io fin →
  Aux.agree (try_finally m_io fin_io) (try_finally m fin).
Proof.
  intros Hm Hf env lists. destruct (Hm env lists) as (Ho & He & Ht).
  unfold Aux.same_answer, try_finally in *.
  destruct (m_io (env, lists)) as [[[env1 lists1] t1] r1].
  destruct (m env) as [[env1' t1'] r1']. cbn in Ho, He, Ht. subst r1 env1' t1'.
  destruct (Hf env1 lists1) as (Ho & He & Ht).
  destruct (fin_io (env1, lists1)) as [[[env2 lists2] t2] r2].
  destruct (fin env1) as [[env2' t2'] r2']. cbn in *. subst r2 env2' t2'.
  destruct r2' as [e|[]]; cbn; by rewrite fmap_app.
Qed.

Lemma agree_attempt {A} (m_io : M (Store Env) A) (m : M Env A) :
  Aux.agree m_io m → Aux.agree (attempt m_io) (attempt m).
Proof.
  intros Hm env lists. destruct (Hm env lists) as (Ho & He & Ht).
  unfold Aux.same_answer, attempt in *.
  destruct (m_io (env, lists)) as [[[env1 lists1] t1] r1].
  destruct (m env) as [[env1' t1'] r1']. cbn in *. by subst r1 env1' t1'.
Qed.

Ltac agree_step :=
  first
    [ apply scrape_problem_data_agree
    | apply agree_ret
    | apply agree_call; done
    | apply agree_bind
    | apply agree_try_except
    | apply agree_try_finally
    | apply agree_attempt
    | progress intros
    | match goal with
      | |- Aux.agree (match ?x with _ => _ end) _ => destruct x
      end ].

Lemma scrape_agree user_number :
  Aux.agree (scrape_io oracle environ user_number) (scrape oracle environ user_number).
Proof.
  unfold scrape_io, scrape, scrape_steps_io, scrape_steps, save_snapshot,
    login_to_cses, login_steps, ensure_user_directory, setup_driver, server_error.
  cbv zeta. repeat agree_step.
Qed.

(** X24: in a world where [print] never raises and changes nothing, the
    scrape request over the extractor with the fallible [print] answers as
    [scrape] does: same response or exception, same world afterwards, same
    events, each call of [print] being the line printed. *)
Theorem requests_agree user_number env lists :
  let r_io := scrape_io oracle environ user_number (env, lists) in
  let r := scrape oracle environ user_number env in
  outcome r_io = outcome r
  ∧ (final_env r_io).1 = final_env r
  ∧ Aux.as_printed <$> trace_of r_io = trace_of r.
Proof. apply scrape_agree. Qed.

End ModelsAgree.

Lemma extractors_agree_witness :
  let r_io := scrape_problem_data_io Sample.quiet_site 1 (mkWait 1 20) (tt, ([], [])) in
  let r := scrape_problem_data Sample.quiet_site 1 (mkWait 1 20) tt in
  Aux.printed (trace_of r)
  = ["Error processing section: no such element";
     "Error processing problem: no such element"]
  ∧ outcome r_io = outcome r
  ∧ (final_env r_io).1 = final_env r
  ∧ Aux.as_printed <$> trace_of r_io = trace_of r.
Proof.
  intros r_io r. split; [reflexivity|].
  apply (extractors_agree Sample.quiet_site); intros line env; by destruct env.
Defined.

Lemma requests_agree_witness :
  let r_io := scrape_io Sample.quiet_site Sample.one_user 1 (tt, ([], [])) in
  let r := scrape Sample.quiet_site Sample.one_user 1 tt in
  outcome r
  = inr (mkResp
           (SuccessBody "Data saved for user alice" 1 2
              "scraped_data/alice/solved_20240101_120000.json"
              "scraped_data/alice/unsolved_20240101_120000.json"
              "scraped_data/alice/stats.json")
           200)
  ∧ outcome r_io = outcome r
  ∧ (final_env r_io).1 = final_env r
  ∧ Aux.as_printed <$> trace_of r_io = trace_of r.
Proof.
  intros r_io r. split; [reflexivity|].
  apply (requests_agree Sample.quiet_site Sample.one_user); intros line env;
    by destruct env.
Defined.

Example path_join_relative :
  path_join "scraped_data" <$> [""; "."; "alice"; "a//b/"; "a/./b"; "./a"; ".."; "a/.."; " "]
  = ["scraped_data"; "scraped_data"; "scraped_data/alice"; "scraped_data/a/b";
     "scraped_data/a/b"; "scraped_data/a"; "scraped_data/.."; "scraped_data/a/..";
     "scraped_data/ "].
Proof. by vm_compute. Qed.

Example path_join_rooted :
  path_join "scraped_data" <$> ["/etc"; "//etc"; "///etc"; "/"; "//"]
  = ["/etc"; "//etc"; "/etc"; "/"; "//"]
  ∧ path_join "/etc" "stats.json" = "/etc/stats.json"
  ∧ path_join "/" "stats.json" = "/stats.json"
  ∧ path_join "." "" = ".".
Proof. by vm_compute. Qed.

(** ** The request with a fallible print *)

Section RequestIOFacts.

Context {Env : Type} (oracle : ∀ T, Call T → Env → Env * (Exception + T)).
Context (environ : string → option string).

#[local] Existing Instance M_ret.
#[local] Existing Instance M_bind.

Lemma emits_append_io P r : emits (Env:=Store Env) P (append_io r).
Proof. intros st. constructor. Qed.

Lemma emits_new_lists P : emits (Env:=Store Env) P new_lists.
Proof. intros st. constructor. Qed.

Lemma emits_read_lists P : emits (Env:=Store Env) P read_lists.
Proof. intros st. constructor. Qed.

Ltac emits_step :=
  first
    [ apply emits_ret
    | apply emits_raise
    | apply emits_call
    | apply emits_append_io
    | apply emits_new_lists
    | apply emits_read_lists
    | apply emits_bind
    | apply emits_try_except
    | apply emits_try_finally
    | apply emits_attempt
    | apply emits_for_each
    | progress intros
    | match goal with
      | |- emits _ (match ?x with _ => _ end) => destruct x
      end ].

(** The steps after the session is set up neither open nor quit a session,
    whatever [print] does. *)
Lemma scrape_steps_io_session driver user_number d :
  emits (λ ev, Trace.is_quit d ev = false ∧ Trace.is_session_open ev = None)
    (try_except (scrape_steps_io oracle environ driver user_number) server_error).
Proof.
  unfold scrape_steps_io, save_snapshot, scrape_problem_data_io, extract_lists_io,
    section_iteration_io, read_section, problem_iteration_io, read_problem, print_io,
    login_to_cses, login_steps, ensure_user_directory, server_error.
  repeat emits_step; done.
Qed.

Lemma scrape_io_started user_number st driver :
  outcome (setup_driver (on_store oracle) st) = inr driver →
  let steps := try_except (scrape_steps_io oracle environ driver user_number) server_error
                 (final_env (setup_driver (on_store oracle) st)) in
  let quit := on_store oracle () (Quit driver) (final_env steps) in
  scrape_io oracle environ user_number st
  = (quit.1,
     trace_of (setup_driver (on_store oracle) st) ++ trace_of steps
     ++ [EvCall (Quit driver) quit.2],
     match quit.2 with
     | inl e => inl e
     | inr _ => outcome steps
     end).
Proof.
  intros E steps quit. unfold scrape_io.
  assert (outcome (attempt (setup_driver (on_store oracle)) st) = inr (inr driver)) as E'
    by (by rewrite attempt_run, <- E).
  rewrite (bind_inr _ _ _ _ E'), attempt_run.
  cbn [final_env trace_of outcome fst snd].
  rewrite try_finally_run, call_run. done.
Qed.

(** X23: with a [print] that may raise, the request still ends with
    [driver.quit()] whenever [setup_driver] has returned the session: the
    quit is the last event, the only quit, and the session is the only one
    opened. A [print] that fails in a handler ends the extraction, not the
    teardown. *)
Theorem session_quit_despite_print user_number st driver :
  outcome (setup_driver (on_store oracle) st) = inr driver →
  let r := scrape_io oracle environ user_number st in
  (∃ answer, last (trace_of r) = Some (EvCall (Quit driver) answer))
  ∧ Trace.sessions_opened (trace_of r) = [driver]
  ∧ length (filter (λ ev, Trace.is_quit driver ev) (trace_of r)) = 1.
Proof.
  intros E r. subst r. rewrite (scrape_io_started _ _ _ E).
  cbn [trace_of fst snd].
  destruct (setup_driver_sessions _ _ _ E) as [Hs Hq].
  pose proof (scrape_steps_io_session driver user_number driver
                (final_env (setup_driver (on_store oracle) st))) as Hsteps.
  apply Forall_and in Hsteps as [Hsq Hso].
  split; [|split].
  - eexists. by rewrite app_assoc, last_snoc.
  - rewrite !sessions_opened_app, Hs, (sessions_opened_none _ Hso). done.
  - rewrite !filter_app, Hq, (quits_none _ _ Hsq).
    rewrite filter_cons, decide_True; [done|].
    cbn. by rewrite bool_decide_eq_true_2.
Qed.

End RequestIOFacts.

Lemma session_quit_despite_print_witness :
  let r := scrape_io Sample.mute_site Sample.one_user 1 (0, ([], [])) in
  outcome r = inr (mkResp (ErrorBody "Scraping error: [Errno 32] Broken pipe") 500)
  ∧ (∃ answer, last (trace_of r) = Some (EvCall (Quit 1) answer))
  ∧ Trace.sessions_opened (trace_of r) = [1]
  ∧ length (filter (λ ev, Trace.is_quit 1 ev) (trace_of r)) = 1.
Proof.
  intros r. split; [reflexivity|].
  apply (session_quit_despite_print Sample.mute_site Sample.one_user 1 (0, ([], [])) 1).
  reflexivity.
Defined.
